(** * GradeBook Analyzer: a shallow embedding of [gradebook.py]

    The development follows the source file function by function.

    - A mark is a Python number.  Every finite [float] (and every [int]) is a
      rational number and Python compares numbers by value, so a mark is a
      [Q], [==] on marks is [Qeq] and [<=] is [Qle].  Float literals of the
      source ([89.9999]) stand for the binary64 number they denote, written
      here as an exact fraction.  Sums and quotients are those of [Q].
    - An [OrderedDict] (and a [dict], and a [Counter]) is an association
      list in iteration order: assigning to a key that is present replaces
      the value where the key stands, assigning to a new key appends.
    - Text is [string]; [str.strip] and [str.lower] are given for ASCII.
    - [float(text)] and [str(number)] are the interpreter's conversions; the
      functions that call them take them as section variables.
    - A CSV file is the list of rows that [csv.writer] is given and that
      [csv.reader] gives back. *)

From Stdlib Require Import Ascii String QArith Qfield Qround Qabs Lqa Sorting.Sorted DecimalString.
From stdpp Require Import base list strings.

Open Scope string_scope.
Open Scope list_scope.
Open Scope Q_scope.

(** ** Results and exceptions *)

Inductive exn :=
  ValueError | IndexError | ZeroDivisionError | StatisticsError | EOFError.

Inductive result (X : Type) :=
  | Return (x : X)
  | Raise (e : exn).
Arguments Return {X} x.
Arguments Raise {X} e.

#[global] Instance result_ret : MRet result := fun _ x => Return x.
#[global] Instance result_bind : MBind result := fun _ _ f r =>
  match r with
  | Return x => f x
  | Raise e => Raise e
  end.

(** ** Dictionaries in insertion order *)

Module Dict.
Section ops.
Context {K V : Type} `{EqDecision K}.

(** [d[k] = v] *)
Fixpoint set (d : list (K * V)) (k : K) (v : V) : list (K * V) :=
  match d with
  | [] => [(k, v)]
  | (k', v') :: d' =>
      if decide (k' = k) then (k', v) :: d' else (k', v') :: set d' k v
  end.

(** [d.get(k)] *)
Fixpoint get (d : list (K * V)) (k : K) : option V :=
  match d with
  | [] => None
  | (k', v') :: d' => if decide (k' = k) then Some v' else get d' k
  end.

(** [d.get(k, dflt)] *)
Definition get_default (d : list (K * V)) (k : K) (dflt : V) : V :=
  default dflt (get d k).

Definition keys (d : list (K * V)) : list K := d.*1.
Definition values (d : list (K * V)) : list V := d.*2.

(** [k in d] *)
Definition mem (d : list (K * V)) (k : K) : bool := bool_decide (k ∈ keys d).

(** A dictionary holds each key once. *)
Definition wf (d : list (K * V)) : Prop := NoDup (keys d).
End ops.
End Dict.

Abbreviation dict K V := (list (K * V)) (only parsing).

(** ** Marks and grades *)

Definition score := Q.
Definition marks_dict := list (string * score).

(** [x < y] on numbers. *)
Definition Qlt_bool (x y : Q) : bool := negb (Qle_bool y x).

Inductive grade := A | B | C | D | F.

#[global] Instance grade_eq_dec : EqDecision grade.
Proof. solve_decision. Defined.

(** The one-letter label of a grade, as the source spells it. *)
Definition grade_label (g : grade) : string :=
  match g with A => "A" | B => "B" | C => "C" | D => "D" | F => "F" end.

(** The binary64 numbers denoted by the float literals of [assign_grades]. *)
Definition float_89_9999 : Q := 3166589969557671 # 35184372088832.
Definition float_79_9999 : Q := 2814746248669351 # 35184372088832.
Definition float_69_9999 : Q := 2462902527781031 # 35184372088832.

(** The body of the loop of [assign_grades]: the [if]/[elif] chain. *)
Definition grade_of (s : score) : grade :=
  if Qle_bool 90 s then A
  else if Qle_bool 80 s && Qle_bool s float_89_9999 then B
  else if Qle_bool 70 s && Qle_bool s float_79_9999 then C
  else if Qle_bool 60 s && Qle_bool s float_69_9999 then D
  else F.

Definition assign_grades (m : marks_dict) : dict string grade :=
  foldl (fun grades '(name, s) => Dict.set grades name (grade_of s)) [] m.

(** [Counter(iterable)]: each element counts one more than before. *)
Definition count_step {K} `{EqDecision K} (c : dict K nat) (k : K) : dict K nat :=
  Dict.set c k (Dict.get_default c k 0%nat + 1)%nat.

Definition Counter {K} `{EqDecision K} (l : list K) : dict K nat :=
  foldl count_step [] l.

Definition grade_distribution (grades : dict string grade) : dict grade nat :=
  Counter (Dict.values grades).

(** ** Statistics *)

(** [sum(xs)]: starts from 0 and adds from the left. *)
Definition py_sum (xs : list Q) : Q := foldl Qplus 0 xs.

(** [a / b] *)
Definition py_div (a b : Q) : result Q :=
  if Qeq_bool b 0 then Raise ZeroDivisionError else Return (a / b).

(** [len(d)] as a number *)
Definition py_len {X : Type} (l : list X) : Q := inject_Z (Z.of_nat (length l)).

Definition calculate_average (m : marks_dict) : result (option Q) :=
  match m with
  | [] => Return None
  | _ => q ← py_div (py_sum (Dict.values m)) (py_len m); Return (Some q)
  end.

(** [sorted(xs)]: ascending and stable. *)
Fixpoint insert_sorted (x : Q) (l : list Q) : list Q :=
  match l with
  | [] => [x]
  | y :: l' => if Qle_bool x y then x :: l else y :: insert_sorted x l'
  end.

Fixpoint sorted (xs : list Q) : list Q :=
  match xs with
  | [] => []
  | x :: xs' => insert_sorted x (sorted xs')
  end.

(** [data[i]] *)
Definition py_index (data : list Q) (i : nat) : result Q :=
  match data !! i with
  | Some x => Return x
  | None => Raise IndexError
  end.

(** [statistics.median(xs)] of the standard library. *)
Definition statistics_median (xs : list Q) : result Q :=
  let data := sorted xs in
  let n := length data in
  if decide (n = 0%nat) then Raise StatisticsError
  else if decide (n mod 2 = 1)%nat then py_index data (n / 2)
  else
    let i := (n / 2)%nat in
    a ← py_index data (i - 1);
    b ← py_index data i;
    py_div (a + b) 2.

Definition calculate_median (m : marks_dict) : result (option Q) :=
  match m with
  | [] => Return None
  | _ => x ← statistics_median (Dict.values m); Return (Some x)
  end.

(** [max(xs)] and [min(xs)] keep the first extreme they meet. *)
Definition py_max (xs : list Q) : result Q :=
  match xs with
  | [] => Raise ValueError
  | x :: xs' => Return (foldl (fun best y => if Qlt_bool best y then y else best) x xs')
  end.

Definition py_min (xs : list Q) : result Q :=
  match xs with
  | [] => Raise ValueError
  | x :: xs' => Return (foldl (fun best y => if Qlt_bool y best then y else best) x xs')
  end.

Definition find_max_score (m : marks_dict) : result (option Q * list string) :=
  match m with
  | [] => Return (None, [])
  | _ =>
      max_score ← py_max (Dict.values m);
      Return (Some max_score,
              (List.filter (fun '(n, s) => Qeq_bool s max_score) m).*1)
  end.

Definition find_min_score (m : marks_dict) : result (option Q * list string) :=
  match m with
  | [] => Return (None, [])
  | _ =>
      min_score ← py_min (Dict.values m);
      Return (Some min_score,
              (List.filter (fun '(n, s) => Qeq_bool s min_score) m).*1)
  end.

(** ** Pass and fail *)

Definition default_threshold : Q := 40.

Definition get_pass_fail (m : marks_dict) (threshold : Q)
  : list string * list string :=
  ((List.filter (fun '(n, s) => Qle_bool threshold s) m).*1,
   (List.filter (fun '(n, s) => Qlt_bool s threshold) m).*1).

Definition create_sample_data : marks_dict :=
  [("Alice", 78); ("Bob", 92); ("Charlie", 65);
   ("Deepa", 55); ("Esha", 34); ("Faiz", 88)].

(** ** Text *)

(** [str.isspace] on the ASCII characters. *)
Definition is_space (c : ascii) : bool :=
  let n := nat_of_ascii c in
  ((9 <=? n) && (n <=? 13) || (28 <=? n) && (n <=? 32))%nat.

(** White space is dropped from the left end, and from the right end as
    from the left end of the reversed text. *)
Fixpoint lstrip (cs : list ascii) : list ascii :=
  match cs with
  | c :: cs' => if is_space c then lstrip cs' else cs
  | [] => []
  end.

Definition rstrip (cs : list ascii) : list ascii := rev (lstrip (rev cs)).

(** A text that [lstrip] leaves alone: empty, or not starting with space. *)
Definition starts_clean (cs : list ascii) : Prop :=
  match cs with
  | [] => True
  | c :: _ => is_space c = false
  end.

(** [s.strip()] *)
Definition strip (s : string) : string :=
  string_of_list_ascii (lstrip (rstrip (list_ascii_of_string s))).

Definition lower_ascii (c : ascii) : ascii :=
  let n := nat_of_ascii c in
  if ((65 <=? n) && (n <=? 90))%nat then ascii_of_nat (n + 32) else c.

(** [s.lower()] *)
Fixpoint lower (s : string) : string :=
  match s with
  | String c s' => String (lower_ascii c) (lower s')
  | EmptyString => EmptyString
  end.

(** ** Input and export *)

Section conversions.
(** [float(text)]; [None] stands for [ValueError]. *)
Variable float : string -> option Q.
(** [str(number)], which [csv.writer] applies to a field that is not text. *)
Variable str : Q -> string.

(** The header test of [load_from_csv]: [start_i] is 1 when the second
    field of the first row is missing or is not a number. *)
Definition start_i (rows : list (list string)) : nat :=
  match rows with
  | r0 :: _ =>
      match r0 !! 1%nat with
      | Some field => if float field is Some _ then 0%nat else 1%nat
      | None => 1%nat
      end
  | [] => 0%nat
  end.

(** One turn of the loop over the rows. *)
Definition load_row (data : marks_dict) (r : list string) : marks_dict :=
  match r with
  | f0 :: f1 :: _ =>
      let name := strip f0 in
      if decide (name = "") then data
      else match float (strip f1) with
           | Some s => Dict.set data name s
           | None => data
           end
  | _ => data
  end.

(** The file is [None] when it cannot be opened or read. *)
Definition load_from_csv (file : option (list (list string))) : marks_dict :=
  match file with
  | None => []
  | Some [] => []
  | Some rows => foldl load_row [] (drop (start_i rows) rows)
  end.

(** The loop of [manual_entry] over the lines the user types; when the
    lines run out [input] raises [EOFError]. *)
Fixpoint manual_entry_loop (data : marks_dict) (lines : list string)
  : result marks_dict :=
  match lines with
  | [] => Raise EOFError
  | l1 :: rest =>
      let name := strip l1 in
      if decide (lower name = "done") then Return data
      else if decide (name = "") then manual_entry_loop data rest
      else match rest with
           | [] => Raise EOFError
           | l2 :: rest' =>
               let score_str := strip l2 in
               if decide (lower score_str = "done") then Return data
               else match float score_str with
                    | Some s => manual_entry_loop (Dict.set data name s) rest'
                    | None => manual_entry_loop data rest'
                    end
           end
  end.

Definition manual_entry (lines : list string) : result marks_dict :=
  manual_entry_loop [] lines.

(** The rows [export_to_csv] writes. *)
Definition export_to_csv (m : marks_dict) (grades : dict string grade)
  : list (list string) :=
  ["Name"; "Marks"; "Grade"] ::
  map (fun '(name, marks) =>
         [name; str marks; from_option grade_label "" (Dict.get grades name)]) m.
End conversions.

(** *** Conversions to run the input layer on

    [float_of_literal] reads a signed decimal literal with an optional
    fraction and gives its value, which is what [float] gives when that
    value is a binary64 number (78, 62.5).  [str_of_number] writes a whole
    number the way [str] writes a whole float (78.0). *)

Fixpoint split_point (s : string) : string * option string :=
  match s with
  | EmptyString => (EmptyString, None)
  | String c s' =>
      if Ascii.eqb c "." then (EmptyString, Some s')
      else let '(a, b) := split_point s' in (String c a, b)
  end.

Definition digits_value (s : string) : option Z :=
  if decide (s = "") then None else Z.of_uint <$> NilEmpty.uint_of_string s.

Definition float_of_literal (s : string) : option Q :=
  let '(negative, body) :=
    match s with
    | String "-" s' => (true, s')
    | String "+" s' => (false, s')
    | _ => (false, s)
    end in
  let '(whole, fraction) := split_point (strip body) in
  i ← digits_value whole;
  f ← match fraction with
       | None => Some 0
       | Some fs => (fun k => k # Pos.pow 10 (Pos.of_nat (String.length fs))) <$> digits_value fs
       end;
  let v := inject_Z i + f in
  Some (Qred (if negative : bool then - v else v)).

Definition str_of_number (q : Q) : string :=
  if decide (Qden q = 1%positive)
  then NilZero.string_of_int (Z.to_int (Qnum q)) +:+ ".0"
  else NilZero.string_of_int (Z.to_int (Qnum q)) +:+ "/" +:+
       NilZero.string_of_int (Z.to_int (Z.pos (Qden q))).

(** ** The entries of the input layer

    What is entered, apart from how the record set is built from it: the
    (name, mark) pairs of the rows that the loader accepts, in file order,
    and the pairs typed in a manual session before DONE. *)

Section entries.
Variable float : string -> option Q.

Definition row_entry (r : list string) : option (string * score) :=
  match r with
  | f0 :: f1 :: _ =>
      let name := strip f0 in
      if decide (name = "") then None
      else s ← float (strip f1); Some (name, s)
  | _ => None
  end.

Definition csv_entries (file : option (list (list string))) : list (string * score) :=
  match file with
  | None => []
  | Some rows => omap row_entry (drop (start_i float rows) rows)
  end.

Fixpoint manual_entries (lines : list string) : list (string * score) :=
  match lines with
  | [] => []
  | l1 :: rest =>
      let name := strip l1 in
      if decide (lower name = "done") then []
      else if decide (name = "") then manual_entries rest
      else match rest with
           | [] => []
           | l2 :: rest' =>
               let score_str := strip l2 in
               if decide (lower score_str = "done") then []
               else match float score_str with
                    | Some s => (name, s) :: manual_entries rest'
                    | None => manual_entries rest'
                    end
           end
  end.

(** The record set [d] is built by the input layer from the entries [es]. *)
Definition input_layer_builds (d : marks_dict) (es : list (string * score)) : Prop :=
  (exists file, load_from_csv float file = d /\ csv_entries file = es) \/
  (exists lines, manual_entry float lines = Return d /\ manual_entries lines = es).
End entries.

(** A name as the input layer stores it: not empty, no white space around. *)
Definition stripped_name (n : string) : Prop := n <> "" /\ strip n = n.

(** The names in the order in which each is first entered. *)
Fixpoint first_seen_from (seen ns : list string) : list string :=
  match ns with
  | [] => []
  | n :: ns' =>
      if decide (n ∈ seen) then first_seen_from seen ns'
      else n :: first_seen_from (n :: seen) ns'
  end.

Definition first_seen (ns : list string) : list string := first_seen_from [] ns.

(** The names in the order in which each is last entered. *)
Fixpoint last_seen (ns : list string) : list string :=
  match ns with
  | [] => []
  | n :: ns' => if decide (n ∈ ns') then last_seen ns' else n :: last_seen ns'
  end.

(** The mark last entered for a name. *)
Definition last_mark_from (init : option score) (n : string) (es : list (string * score))
  : option score :=
  foldl (fun acc '(n', s) => if decide (n' = n) then Some s else acc) init es.

Definition last_mark (n : string) (es : list (string * score)) : option score :=
  last_mark_from None n es.

(** ** The statistics in the words of the specification *)


(** The number of students holding grade [g]. *)
Definition holders (g : grade) (grades : dict string grade) : nat :=
  length (List.filter (fun '(n, g') => bool_decide (g' = g)) grades).

(** ** Marks and record sets the properties are run on *)

(** The binary64 numbers that the texts 89.99995 and 59.99995 denote. *)
Definition float_89_99995 : Q := 6333183457552551 # 70368744177664.
Definition float_59_99995 : Q := 4222121132222631 # 70368744177664.

Definition gap_marks : marks_dict :=
  [("Ann", float_89_99995); ("Bo", float_59_99995); ("Cy", 80)].

(** The binary64 number that the text 39.999 denotes. *)
Definition float_39_999 : Q := 5629358796724765 # 140737488355328.

Definition pass_marks : marks_dict :=
  [("Ann", 40); ("Bo", float_39_999); ("Cy", 75.5); ("Di", -5)].

Definition tie_marks : marks_dict :=
  [("Ann", 92); ("Bo", 34); ("Cy", 92); ("Di", 34); ("Ed", 50)].

Definition only_B : dict string grade := [("Ann", B)].

Definition dup_rows : list (list string) :=
  [["name"; "marks"]; ["Ann"; "1"]; ["Bo"; "2"]; ["Ann"; "3"]].

Definition dup_lines : list string := ["Ann"; "1"; "Bo"; "2"; "Ann"; "3"; "done"].

Definition dup_entries : list (string * score) := [("Ann", 1); ("Bo", 2); ("Ann", 3)].


(** ** Further notions the properties speak of *)

(** The grade table of the specification: half-open bands. *)
Definition band_grade (s : score) : grade :=
  if Qle_bool 90 s then A
  else if Qle_bool 80 s then B
  else if Qle_bool 70 s then C
  else if Qle_bool 60 s then D
  else F.

(** The marks between the literal that closes a band and the threshold of
    the band above. *)
Definition in_gap (s : score) : Prop :=
  float_89_9999 < s < 90 \/ float_79_9999 < s < 80 \/ float_69_9999 < s < 70.

(** A line that ends a manual session. *)
Definition is_done (l : string) : Prop := lower (strip l) = "done".

(** A conversion that, as [float] does, reads through white space around
    the literal. *)
Definition float_of_text (s : string) : option Q := float_of_literal (strip s).

(** The number of students whose mark is graded [g]. *)
Definition graded (g : grade) (m : marks_dict) : nat :=
  length (List.filter (fun '(n, s) => bool_decide (grade_of s = g)) m).


Definition rows_with_junk : list (list string) :=
  [["Ann"; "91"]; ["Bo"]; ["Cy"; "abc"]; [" "; "50"]; ["Di"; " 40 "; "extra"]].

Definition typed_lines : list string :=
  ["Ann"; "91"; ""; "Bo"; "x"; "Cy"; "55"; " DONE "; "Di"; "70"].

(** ** Text layout *)

(** The line feed. *)
Definition nl : string := String "010" "".

Definition spaces (n : nat) : string := string_of_list_ascii (replicate n " "%char).

(** ["-" * n] *)
Definition dashes (n : nat) : string := string_of_list_ascii (replicate n "-"%char).

(** [f"{s:<{w}}"], [f"{s:>{w}}"] and [f"{s:^{w}}"]: a text longer than the
    width is left as it is; centring puts the smaller half of the padding
    on the left. *)
Definition ljust (s : string) (w : nat) : string :=
  s +:+ spaces (w - String.length s).

Definition rjust (s : string) (w : nat) : string :=
  spaces (w - String.length s) +:+ s.

Definition center (s : string) (w : nat) : string :=
  let pad := (w - String.length s)%nat in
  spaces (pad / 2) +:+ s +:+ spaces (pad - pad / 2).

(** [str(n)] for a count. *)
Definition str_nat (n : nat) : string := NilZero.string_of_uint (Nat.to_uint n).

(** [max(ns, default=d)] *)
Definition max_default (ns : list nat) (d : nat) : nat :=
  match ns with
  | [] => d
  | n :: ns' => foldl Nat.max n ns'
  end.

(** Rounding to the nearest whole number, a tie going to the even one. *)
Definition round_half_even (x : Q) : Z :=
  let f := Qfloor x in
  match Qcompare (x - inject_Z f) (1 # 2) with
  | Lt => f
  | Gt => (f + 1)%Z
  | Eq => if Z.even f then f else (f + 1)%Z
  end.

Definition digit (d : Z) : ascii := ascii_of_nat (48 + Z.to_nat d).

(** [f"{q:.2f}"]: the sign, the whole part, the point and two decimals of
    the number rounded to hundredths. *)
Definition format_2f (q : Q) : string :=
  let n := round_half_even (Qabs q * 100) in
  (if Qlt_bool q 0 then "-" else "") +:+
  NilZero.string_of_uint (N.to_uint (Z.to_N (n / 100))) +:+ "." +:+
  String (digit ((n mod 100) / 10)) (String (digit (n mod 10)) "").

Fixpoint lstrip_char (c : ascii) (cs : list ascii) : list ascii :=
  match cs with
  | x :: cs' => if Ascii.eqb x c then lstrip_char c cs' else cs
  | [] => []
  end.

(** [s.rstrip(c)] for a one-character [c]. *)
Definition rstrip_char (c : ascii) (s : string) : string :=
  string_of_list_ascii (rev (lstrip_char c (rev (list_ascii_of_string s)))).

(** The text [print_table] shows for a mark: two decimals, then the zeros
    at the end cut, then the point at the end cut.  For a whole number this
    is the text [str] gives for an [int] (see [marks_str_whole]), so the
    branch on [isinstance(marks, float)] makes no difference. *)
Definition marks_str (q : Q) : string :=
  rstrip_char "." (rstrip_char "0" (format_2f q)).

(** The texts [print_table] prints, one per call of [print]. *)
Definition print_table (m : marks_dict) (grades : dict string grade) : list string :=
  match m with
  | [] => ["No data to show."]
  | _ =>
      let names := Dict.keys m in
      let max_name_len :=
        Nat.max (String.length "Name") (max_default (String.length <$> names) 4) in
      let max_marks_len := Nat.max (String.length "Marks") 6 in
      let max_grade_len := Nat.max (String.length "Grade") 5 in
      let sep := dashes (max_name_len + max_marks_len + max_grade_len + 8) in
      let header :=
        ljust "Name" max_name_len +:+ "  " +:+ rjust "Marks" max_marks_len +:+ "  " +:+
        center "Grade" max_grade_len in
      [nl +:+ header; sep] ++
      map (fun '(name, marks) =>
             let grade := from_option grade_label "" (Dict.get grades name) in
             ljust name max_name_len +:+ "  " +:+ rjust (marks_str marks) max_marks_len +:+
             "  " +:+ center grade max_grade_len) m ++
      [sep +:+ nl]
  end.

(** ** Sessions

    What the interactive functions do to the world around them: the lines
    still to be typed, what has been shown, and the files.  [print(text)]
    shows a text, [input(prompt)] shows the prompt and takes the next line
    or raises [EOFError] when none is left.  A file holds rows or cannot be
    read; a file that is not there is not in the dictionary.  A loop runs on
    fuel, one turn more than there are lines to read. *)

Inductive event :=
  | Printed (text : string)
  | Prompted (prompt : string).

Inductive reading :=
  | Opened (rows : list (list string))
  | Unreadable (error : string).

Record world := World {
  stdin : list string;
  stdout : list event;
  files : dict string reading
}.

Inductive step (X : Type) :=
  | Ran (r : result X) (w : world)
  | OutOfFuel.
Arguments Ran {X} r w.
Arguments OutOfFuel {X}.

Definition io (X : Type) : Type := world -> step X.

#[global] Instance io_ret : MRet io := fun _ x w => Ran (Return x) w.
#[global] Instance io_bind : MBind io := fun _ _ f m w =>
  match m w with
  | Ran (Return x) w' => f x w'
  | Ran (Raise e) w' => Ran (Raise e) w'
  | OutOfFuel => OutOfFuel
  end.

Definition print (text : string) : io unit := fun w =>
  Ran (Return tt) (World (stdin w) (stdout w ++ [Printed text]) (files w)).

Definition input (prompt : string) : io string := fun w =>
  let w' := World (tail (stdin w)) (stdout w ++ [Prompted prompt]) (files w) in
  match stdin w with
  | [] => Ran (Raise EOFError) w'
  | l :: _ => Ran (Return l) w'
  end.

(** A function that does not touch the world. *)
Definition lift {X : Type} (r : result X) : io X := fun w => Ran r w.

Definition with_fuel {X : Type} (loop : nat -> io X) : io X := fun w =>
  loop (S (length (stdin w))) w.

Fixpoint for_each {X : Type} (l : list X) (body : X -> io unit) : io unit :=
  match l with
  | [] => mret tt
  | x :: l' => body x;; for_each l' body
  end.

(** [", ".join(names)] *)
Definition join_names (names : list string) : string := String.concat ", " names.

Definition menu_text : string :=
  nl +:+ "======== GradeBook Analyzer ========" +:+ nl +:+
  "1) Manual entry (type in names & marks)" +:+ nl +:+
  "2) Load from CSV file (path)" +:+ nl +:+
  "3) Load sample CSV (creates sample data in memory)" +:+ nl +:+
  "4) Exit" +:+ nl.

Module Session.
Section functions.
Variable float : string -> option Q.
Variable str : Q -> string.
(** The error with which opening a path for writing fails, if it does. *)
Variable write_error : string -> option string.

Fixpoint manual_entry_loop (fuel : nat) (data : marks_dict) : io marks_dict :=
  match fuel with
  | O => fun _ => OutOfFuel
  | S fuel' =>
      l ← input "Student name (or DONE): ";
      let name := strip l in
      if decide (lower name = "done") then mret data
      else if decide (name = "") then
        print "Name cannot be empty.";; manual_entry_loop fuel' data
      else
        l' ← input ("Marks for " +:+ name +:+ ": ");
        let score_str := strip l' in
        if decide (lower score_str = "done") then mret data
        else match float score_str with
             | Some s => manual_entry_loop fuel' (Dict.set data name s)
             | None =>
                 print "Please enter a valid number for marks.";;
                 manual_entry_loop fuel' data
             end
  end.

Definition manual_entry : io marks_dict :=
  print (nl +:+ "Manual entry mode. Enter student data. Type DONE to finish.");;
  with_fuel (fun fuel => manual_entry_loop fuel []).

Definition load_from_csv (path : string) : io marks_dict := fun w =>
  match Dict.get (files w) path with
  | None => (print ("File not found: " +:+ path);; mret []) w
  | Some (Unreadable e) => (print ("Error reading CSV: " +:+ e);; mret []) w
  | Some (Opened []) => (print "CSV is empty.";; mret []) w
  | Some (Opened rows) => (mret (load_from_csv float (Some rows)) : io marks_dict) w
  end.

Definition export_to_csv (m : marks_dict) (grades : dict string grade)
    (out_path : string) : io unit := fun w =>
  match write_error out_path with
  | Some e => print ("Failed to export CSV: " +:+ e) w
  | None =>
      print ("Exported results to " +:+ out_path)
        (World (stdin w) (stdout w)
           (Dict.set (files w) out_path (Opened (export_to_csv str m grades))))
  end.

Definition print_table (m : marks_dict) (grades : dict string grade) : io unit :=
  for_each (print_table m grades) print.

Definition show_menu : io unit := print menu_text.

Fixpoint export_loop (fuel : nat) (marks : marks_dict) (grades : dict string grade)
  : io unit :=
  match fuel with
  | O => fun _ => OutOfFuel
  | S fuel' =>
      l ← input "Do you want to export the results table to CSV? (y/n): ";
      let choice := lower (strip l) in
      if decide (choice ∈ ["y"; "yes"]) then
        l' ← input "Enter output CSV filename (e.g. results.csv): ";
        let out_path := strip l' in
        let out_path := if decide (out_path = "") then "results.csv" else out_path in
        export_to_csv marks grades out_path
      else if decide (choice ∈ ["n"; "no"]) then mret tt
      else print "Please enter y or n.";; export_loop fuel' marks grades
  end.

Definition run_analysis (marks : marks_dict) : io unit :=
  match marks with
  | [] => print "No student data provided. Nothing to analyze."
  | _ =>
      avg ← lift (calculate_average marks);
      med ← lift (calculate_median marks);
      top ← lift (find_max_score marks);
      bottom ← lift (find_min_score marks);
      let '(max_score, max_students) := top in
      let '(min_score, min_students) := bottom in
      let grades := assign_grades marks in
      let dist := grade_distribution grades in
      let '(passed, failed) := get_pass_fail marks default_threshold in
      print (nl +:+ "--- Analysis Summary ---");;
      print ("Total students: " +:+ str_nat (length marks));;
      print (match avg with
             | Some a => "Average (mean): " +:+ format_2f a
             | None => "Average: N/A"
             end);;
      print (match med with
             | Some a => "Median: " +:+ format_2f a
             | None => "Median: N/A"
             end);;
      match max_score with
      | Some x =>
          print ("Max score: " +:+ str x +:+ "  (Students: " +:+
                 join_names max_students +:+ ")")
      | None => mret tt
      end;;
      match min_score with
      | Some x =>
          print ("Min score: " +:+ str x +:+ "  (Students: " +:+
                 join_names min_students +:+ ")")
      | None => mret tt
      end;;
      print (nl +:+ "Grade distribution:");;
      for_each [A; B; C; D; F] (fun g =>
        print ("  " +:+ grade_label g +:+ ": " +:+ str_nat (Dict.get_default dist g 0%nat)));;
      print (nl +:+ "Passed (>=40): " +:+ str_nat (length passed));;
      match passed with
      | [] => mret tt
      | _ => print ("  " +:+ join_names passed)
      end;;
      print ("Failed (<40): " +:+ str_nat (length failed));;
      match failed with
      | [] => mret tt
      | _ => print ("  " +:+ join_names failed)
      end;;
      print_table marks grades;;
      with_fuel (fun fuel => export_loop fuel marks grades)
  end.

(** [main] ends only through [sys.exit]; its value is the exit code. *)
Fixpoint main_loop (fuel : nat) : io Z :=
  match fuel with
  | O => fun _ => OutOfFuel
  | S fuel' =>
      show_menu;;
      l ← input "Choose an option (1-4): ";
      let choice := strip l in
      if decide (choice = "1") then
        data ← manual_entry; run_analysis data;; main_loop fuel'
      else if decide (choice = "2") then
        l' ← input "Enter CSV file path: ";
        data ← load_from_csv (strip l'); run_analysis data;; main_loop fuel'
      else if decide (choice = "3") then
        print "Loaded sample data (6 students).";;
        run_analysis create_sample_data;; main_loop fuel'
      else if decide (choice = "4" \/ lower choice ∈ ["exit"; "quit"]) then
        print "Exiting. Bye!";; mret 0%Z
      else
        print "Invalid choice. Please enter 1, 2, 3, or 4.";; main_loop fuel'
  end.

Definition main : io Z :=
  print "Welcome to GradeBook Analyzer!";; with_fuel main_loop.
End functions.
End Session.

(** A file system with one file, and what a user may type. *)
Definition one_file : dict string reading :=
  [("marks.csv", Opened [["name"; "marks"]; ["Ann"; "91"]; ["Bo"; "38"]])].

Definition typed_session : list string :=
  ["2"; " marks.csv "; "maybe"; "Y"; ""; "5"; "quit"; "1"].

(** An answer to the export question. *)
Definition says_yes (l : string) : Prop := lower (strip l) ∈ ["y"; "yes"].
Definition says_no (l : string) : Prop := lower (strip l) ∈ ["n"; "no"].

(** An action that runs at [w] the way every action of a session does: it
    ends within its fuel, reads lines only from the front of what is typed,
    only adds to what is shown, raises nothing but [EOFError] and that only
    when all lines are read, and leaves the files alone unless a line that
    is still to be read says yes.  What it returns satisfies [Q]. *)
Definition tame_at {X : Type} (Q : X -> Prop) (m : io X) (w : world) : Prop :=
  exists r w',
    m w = Ran r w' /\
    stdin w' `suffix_of` stdin w /\
    stdout w `prefix_of` stdout w' /\
    (forall x, r = Return x -> Q x) /\
    (forall e, r = Raise e -> e = EOFError /\ stdin w' = []) /\
    (Forall (fun l => ~ says_yes l) (stdin w) -> files w' = files w).

(** The rows a path gives to a reader, when it gives any. *)
Definition file_rows (fs : dict string reading) (path : string)
  : option (list (list string)) :=
  match Dict.get fs path with
  | Some (Opened rows) => Some rows
  | _ => None
  end.

(** The world [w1] is [w] with more shown. *)
Definition same_but_shown (w w1 : world) : Prop :=
  stdin w1 = stdin w /\ files w1 = files w /\ stdout w `prefix_of` stdout w1.

(** An action that only shows something. *)
Definition quiet (m : io unit) : Prop :=
  forall w, exists w1, same_but_shown w w1 /\ m w = Ran (Return tt) w1.

(** * Properties *)

(** ** The functions at work *)

Example sample_average :
  calculate_average create_sample_data = Return (Some ((0 + 78 + 92 + 65 + 55 + 34 + 88) / 6)).
Proof. reflexivity. Qed.

Example sample_median :
  calculate_median create_sample_data = Return (Some ((65 + 78) / 2)).
Proof. reflexivity. Qed.

Example sample_extremes :
  find_max_score create_sample_data = Return (Some 92, ["Bob"]) /\
  find_min_score create_sample_data = Return (Some 34, ["Esha"]).
Proof. split; reflexivity. Qed.

Example sample_grades :
  assign_grades create_sample_data =
  [("Alice", C); ("Bob", A); ("Charlie", D); ("Deepa", F); ("Esha", F); ("Faiz", B)].
Proof. reflexivity. Qed.

Example sample_distribution :
  grade_distribution (assign_grades create_sample_data) =
  [(C, 1%nat); (A, 1%nat); (D, 1%nat); (F, 2%nat); (B, 1%nat)].
Proof. reflexivity. Qed.

Example sample_pass_fail :
  get_pass_fail create_sample_data default_threshold =
  (["Alice"; "Bob"; "Charlie"; "Deepa"; "Faiz"], ["Esha"]).
Proof. reflexivity. Qed.

Example strip_example : strip "  Bob Ray  " = "Bob Ray".
Proof. reflexivity. Qed.

Example lower_example : lower "DoNe" = "done".
Proof. reflexivity. Qed.

Example float_of_literal_examples :
  map float_of_literal ["78"; "78.0"; "-5"; "62.5"; " 40 "; "Marks"; ""]
  = [Some 78; Some 78; Some (-5); Some (125 # 2); Some 40; None; None].
Proof. reflexivity. Qed.

Example str_of_number_examples :
  map str_of_number [78; -5] = ["78.0"; "-5.0"].
Proof. reflexivity. Qed.

Example load_example :
  load_from_csv float_of_literal
    (Some [["name"; "marks"]; ["Ann"; "91"]; ["Bo"]; ["  "; "3"]; ["Cy"; "x"]; [" Di "; " 40 "]])
  = [("Ann", 91); ("Di", 40)].
Proof. reflexivity. Qed.

Example manual_example :
  manual_entry float_of_literal ["Ann"; "91"; ""; "Bo"; "x"; "Cy"; "55"; "Done"]
  = Return [("Ann", 91); ("Cy", 55)].
Proof. reflexivity. Qed.

(** ** Dictionaries *)

Section dict_facts.
Context {K V : Type} `{EqDecision K}.
Implicit Types (d : list (K * V)) (k : K) (v : V).

Lemma set_fresh d k v : k ∉ Dict.keys d -> Dict.set d k v = d ++ [(k, v)].
Proof.
  unfold Dict.keys. induction d as [|[k' v'] d IH]; csimpl; [done|].
  intros Hk. apply not_elem_of_cons in Hk as [Hne Hk].
  destruct (decide (k' = k)); [congruence|]. by rewrite IH.
Qed.

Lemma keys_set_present d k v : k ∈ Dict.keys d -> Dict.keys (Dict.set d k v) = Dict.keys d.
Proof.
  unfold Dict.keys. induction d as [|[k' v'] d IH]; csimpl.
  - by intros ?%elem_of_nil.
  - intros Hk. destruct (decide (k' = k)) as [->|Hne]; csimpl; [done|].
    apply elem_of_cons in Hk as [->|Hk]; [done|]. by rewrite IH.
Qed.

Lemma keys_set d k v :
  Dict.keys (Dict.set d k v) =
  if decide (k ∈ Dict.keys d) then Dict.keys d else Dict.keys d ++ [k].
Proof.
  destruct (decide (k ∈ Dict.keys d)) as [Hk|Hk].
  - by apply keys_set_present.
  - rewrite set_fresh by done. unfold Dict.keys. by rewrite fmap_app.
Qed.

Lemma wf_set d k v : Dict.wf d -> Dict.wf (Dict.set d k v).
Proof.
  unfold Dict.wf. rewrite keys_set. intros Hd. case_decide; [done|].
  apply NoDup_app. split_and!; [done| |apply NoDup_singleton].
  intros x Hx ->%list_elem_of_singleton. done.
Qed.

Lemma get_set_eq d k v : Dict.get (Dict.set d k v) k = Some v.
Proof.
  induction d as [|[k' v'] d IH]; csimpl.
  - by rewrite decide_True.
  - destruct (decide (k' = k)) as [->|Hne]; csimpl.
    + by rewrite decide_True.
    + by rewrite decide_False.
Qed.

Lemma get_set_ne d k k' v : k ≠ k' -> Dict.get (Dict.set d k v) k' = Dict.get d k'.
Proof.
  intros Hne. induction d as [|[k0 v0] d IH]; csimpl.
  - by rewrite decide_False.
  - destruct (decide (k0 = k)) as [->|Hne0]; csimpl.
    + by rewrite !decide_False.
    + by rewrite IH.
Qed.

Lemma get_None d k : Dict.get d k = None <-> k ∉ Dict.keys d.
Proof.
  unfold Dict.keys. induction d as [|[k' v'] d IH]; csimpl.
  - split; [intros _; apply not_elem_of_nil|done].
  - rewrite not_elem_of_cons. destruct (decide (k' = k)) as [->|Hne].
    + split; [done|]. by intros [? _].
    + rewrite IH. split; [by split|by intros [_ ?]].
Qed.

Lemma get_Some d k v : Dict.wf d -> Dict.get d k = Some v <-> (k, v) ∈ d.
Proof.
  unfold Dict.wf, Dict.keys. induction d as [|[k' v'] d IH]; csimpl.
  - intros _. split; [done|by intros ?%elem_of_nil].
  - intros [Hk' Hd]%NoDup_cons. rewrite elem_of_cons.
    destruct (decide (k' = k)) as [->|Hne].
    + split; [intros [= ->]; by left|].
      intros [[= ->]|Hin]; [done|].
      destruct Hk'. apply list_elem_of_fmap. by exists (k, v).
    + rewrite IH by done. split; [by right|]. intros [[= ? ?]|?]; [congruence|done].
Qed.

Lemma wf_nil : Dict.wf (@nil (K * V)).
Proof. apply NoDup_nil_2. Qed.
End dict_facts.

(** ** Grades *)

Lemma float_literals_below :
  float_89_9999 < 89.9999 /\ float_79_9999 < 79.9999 /\ float_69_9999 < 69.9999.
Proof. repeat split. Qed.

Lemma Qle_bool_false (x y : Q) : Qle_bool x y = false <-> y < x.
Proof.
  rewrite <- not_true_iff_false, Qle_bool_iff. split; [apply Qnot_le_lt|apply Qlt_not_le].
Qed.

Lemma grade_of_cases (s : score) : grade_of s ∈ [A; B; C; D; F].
Proof. destruct (grade_of s); rewrite !elem_of_cons; tauto. Qed.

Lemma grade_of_A (s : score) : grade_of s = A <-> 90 <= s.
Proof.
  unfold grade_of. destruct (Qle_bool 90 s) eqn:E.
  - by apply Qle_bool_iff in E.
  - apply Qle_bool_false in E. split; [|intros ?%Qle_not_lt; done].
    repeat case_match; done.
Qed.

Lemma Qlt_bool_iff (x y : Q) : Qlt_bool x y = true <-> x < y.
Proof. unfold Qlt_bool. by rewrite negb_true_iff, Qle_bool_false. Qed.

Lemma Qlt_bool_false (x y : Q) : Qlt_bool x y = false <-> y <= x.
Proof. unfold Qlt_bool. by rewrite negb_false_iff, Qle_bool_iff. Qed.

Ltac Qbool :=
  repeat match goal with
  | H : Qle_bool _ _ = true |- _ => apply Qle_bool_iff in H
  | H : Qle_bool _ _ = false |- _ => apply Qle_bool_false in H
  | H : Qlt_bool _ _ = true |- _ => apply Qlt_bool_iff in H
  | H : Qlt_bool _ _ = false |- _ => apply Qlt_bool_false in H
  | H : _ && _ = true |- _ => apply andb_true_iff in H as [? ?]
  | H : _ && _ = false |- _ => apply andb_false_iff in H as [?|?]
  end.

(** Between the literal that closes a band and the next threshold the chain
    falls through to its last branch. *)
Lemma grade_of_gap (s : score) :
  float_89_9999 < s < 90 \/ float_79_9999 < s < 80 \/
  float_69_9999 < s < 70 \/ s < 60 ->
  grade_of s = F.
Proof.
  pose proof float_literals_below as (H9 & H8 & H7).
  assert (79.9999 < 80 /\ 69.9999 < 70 /\ 80 < 89.9999 /\ 70 < 79.9999 /\ 60 < 69.9999)
    as (?&?&?&?&?) by (repeat split).
  unfold grade_of. intros Hs.
  destruct (Qle_bool 90 s) eqn:E1, (Qle_bool 80 s && Qle_bool s float_89_9999) eqn:E2,
    (Qle_bool 70 s && Qle_bool s float_79_9999) eqn:E3,
    (Qle_bool 60 s && Qle_bool s float_69_9999) eqn:E4; try done; exfalso; Qbool;
    unfold float_89_9999, float_79_9999, float_69_9999 in *;
    destruct Hs as [[??]|[[??]|[[??]|?]]]; lra.
Qed.

(** A concrete dictionary is well formed by computation. *)
Ltac dict_wf :=
  unfold Dict.wf, Dict.keys; apply (bool_decide_unpack _); vm_compute; exact I.

(** Assigning to keys that are all new appends them in order. *)
Lemma foldl_set_fresh {V W : Type} (f : V -> W) (m : list (string * V)) :
  forall acc : list (string * W),
  NoDup (Dict.keys acc ++ Dict.keys m) ->
  foldl (fun g '(n, s) => Dict.set g n (f s)) acc m =
  acc ++ ((fun '(n, s) => (n, f s)) <$> m).
Proof.
  unfold Dict.keys. induction m as [|[n s] m IH]; intros acc Hnd; csimpl in *.
  - by rewrite app_nil_r.
  - apply NoDup_app in Hnd as (Hacc & Hdisj & [Hn Hm]%NoDup_cons).
    rewrite set_fresh by (intros Hin; apply (Hdisj _ Hin); left).
    rewrite IH, <- app_assoc; [done|].
    rewrite fmap_app. csimpl. rewrite <- app_assoc. csimpl.
    apply NoDup_app. split_and!; [done| |by apply NoDup_cons].
    intros x Hx. by apply Hdisj.
Qed.

Lemma assign_grades_fmap (m : marks_dict) :
  Dict.wf m -> assign_grades m = (fun '(n, s) => (n, grade_of s)) <$> m.
Proof. intros Hm. unfold assign_grades. by rewrite foldl_set_fresh. Qed.

Lemma assign_grades_keys (m : marks_dict) :
  Dict.wf m -> Dict.keys (assign_grades m) = Dict.keys m.
Proof.
  intros Hm. rewrite assign_grades_fmap by done. unfold Dict.keys.
  rewrite <- list_fmap_compose. apply list_fmap_ext. by intros ? [??].
Qed.

Lemma assign_grades_get (m : marks_dict) (n : string) (s : score) :
  Dict.wf m -> (n, s) ∈ m -> Dict.get (assign_grades m) n = Some (grade_of s).
Proof.
  intros Hm Hin. apply get_Some.
  - unfold Dict.wf. by rewrite assign_grades_keys.
  - rewrite assign_grades_fmap by done. apply list_elem_of_fmap. by exists (n, s).
Qed.

(** C1. The bands of the specification are half-open, [80 <= s < 90] being
    B.  The source closes the B band at the literal 89.9999 instead: the
    mark 89.99995 lies in [80, 90) and is graded F. *)
Theorem grade_band_B_misses_89_99995 :
  80 <= float_89_99995 /\ float_89_99995 < 90 /\
  grade_of float_89_99995 = F /\
  assign_grades [("Ann", float_89_99995)] = [("Ann", F)].
Proof. by repeat split. Qed.

(** C2. Grading is total: the grade dictionary has the names of the record
    set, each name holds the one grade, among A, B, C, D and F, that the
    chain gives its mark; and a mark strictly inside (89.9999, 90),
    (79.9999, 80), (69.9999, 70) or (59.9999, 60) is graded F by the last
    branch. *)
Theorem assign_grades_total_gaps_F (m : marks_dict) :
  Dict.wf m ->
  Dict.keys (assign_grades m) = Dict.keys m /\
  (forall n s, (n, s) ∈ m ->
     Dict.get (assign_grades m) n = Some (grade_of s) /\
     grade_of s ∈ [A; B; C; D; F]) /\
  (forall n s, (n, s) ∈ m ->
     89.9999 < s < 90 \/ 79.9999 < s < 80 \/ 69.9999 < s < 70 \/ 59.9999 < s < 60 ->
     Dict.get (assign_grades m) n = Some F).
Proof.
  intros Hm. split_and!.
  - by apply assign_grades_keys.
  - intros n s Hin. split; [by apply assign_grades_get|apply grade_of_cases].
  - intros n s Hin Hgap. rewrite (assign_grades_get m n s) by done. f_equal.
    apply grade_of_gap. unfold float_89_9999, float_79_9999, float_69_9999.
    destruct Hgap as [[??]|[[??]|[[??]|[??]]]];
      [left|right; left|right; right; left|right; right; right]; try split; lra.
Qed.

Example gap_marks_grades :
  assign_grades gap_marks = [("Ann", F); ("Bo", F); ("Cy", B)].
Proof. reflexivity. Qed.

Lemma assign_grades_total_gaps_F_witness :
  Dict.wf gap_marks /\
  Dict.keys (assign_grades gap_marks) = Dict.keys gap_marks /\
  (forall n s, (n, s) ∈ gap_marks ->
     Dict.get (assign_grades gap_marks) n = Some (grade_of s) /\
     grade_of s ∈ [A; B; C; D; F]) /\
  (forall n s, (n, s) ∈ gap_marks ->
     89.9999 < s < 90 \/ 79.9999 < s < 80 \/ 69.9999 < s < 70 \/ 59.9999 < s < 60 ->
     Dict.get (assign_grades gap_marks) n = Some F).
Proof.
  assert (Hwf : Dict.wf gap_marks) by dict_wf.
  split; [exact Hwf|]. exact (assign_grades_total_gaps_F gap_marks Hwf).
Defined.

(** ** Lists filtered by a test *)

Section filter_facts.
Context {X : Type} (f : X -> bool).

Lemma elem_of_List_filter (l : list X) (x : X) :
  x ∈ List.filter f l <-> x ∈ l /\ f x = true.
Proof. rewrite !list_elem_of_In. apply filter_In. Qed.

Lemma sublist_List_filter (l : list X) : sublist (List.filter f l) l.
Proof.
  induction l as [|x l IH]; simpl; [constructor|].
  destruct (f x); by constructor.
Qed.

Lemma List_filter_partition (g : X -> bool) (l : list X) :
  (forall x, g x = negb (f x)) ->
  List.filter f l ++ List.filter g l ≡ₚ l.
Proof.
  intros Hg. induction l as [|x l IH]; simpl; [done|].
  rewrite Hg. destruct (f x); simpl.
  - by constructor.
  - rewrite <- Permutation_middle. by constructor.
Qed.
End filter_facts.

Lemma elem_of_filter_names (f : string * score -> bool) (m : marks_dict) (n : string) :
  n ∈ (List.filter f m).*1 <-> exists s, (n, s) ∈ m /\ f (n, s) = true.
Proof.
  rewrite list_elem_of_fmap. split.
  - intros ([n' s] & -> & Hin). apply elem_of_List_filter in Hin. by exists s.
  - intros (s & Hin & Hf). exists (n, s). split; [done|]. by apply elem_of_List_filter.
Qed.

Lemma sublist_filter_names (f : string * score -> bool) (m : marks_dict) :
  sublist (List.filter f m).*1 (Dict.keys m).
Proof. apply fmap_sublist, sublist_List_filter. Qed.

(** In a well-formed record set a name has one mark. *)
Lemma wf_mark_unique (m : marks_dict) (n : string) (s s' : score) :
  Dict.wf m -> (n, s) ∈ m -> (n, s') ∈ m -> s = s'.
Proof.
  intros Hm H1 H2. apply (get_Some _ _ _ Hm) in H1, H2. congruence.
Qed.

(** ** Empty record set *)

(** C10. On the empty record set every statistic returns an absent result
    and none raises: mean and median are [None], max and min are [None]
    with an empty list of names. *)
Theorem statistics_of_empty_record_set :
  calculate_average [] = Return None /\
  calculate_median [] = Return None /\
  find_max_score [] = Return (None, []) /\
  find_min_score [] = Return (None, []).
Proof. by repeat split. Qed.

(** ** Pass and fail *)

(** C7. With the threshold 40 a name is in the passed list iff its mark is
    at least 40 and in the failed list iff its mark is below 40; no name is
    in both, the two lists together hold every name of the record set once,
    and each lists its names in record-set order. *)
Theorem get_pass_fail_partition (m : marks_dict) :
  Dict.wf m ->
  let passed := (get_pass_fail m default_threshold).1 in
  let failed := (get_pass_fail m default_threshold).2 in
  (forall n s, (n, s) ∈ m -> (n ∈ passed <-> 40 <= s) /\ (n ∈ failed <-> s < 40)) /\
  (forall n, n ∈ passed -> n ∉ failed) /\
  passed ++ failed ≡ₚ Dict.keys m /\
  NoDup (passed ++ failed) /\
  sublist passed (Dict.keys m) /\
  sublist failed (Dict.keys m).
Proof.
  intros Hm passed failed.
  assert (Hperm : passed ++ failed ≡ₚ Dict.keys m).
  { unfold passed, failed, get_pass_fail, Dict.keys; simpl.
    rewrite <- fmap_app. apply fmap_Permutation.
    apply List_filter_partition. by intros [??]. }
  assert (Hmem : forall n s, (n, s) ∈ m ->
            (n ∈ passed <-> 40 <= s) /\ (n ∈ failed <-> s < 40)).
  { intros n s Hin. unfold passed, failed, get_pass_fail; simpl.
    rewrite !elem_of_filter_names. split; split.
    - intros (s' & Hin' & Hle). rewrite (wf_mark_unique m n s s') by done.
      by apply Qle_bool_iff.
    - intros Hle. exists s. split; [done|]. by apply Qle_bool_iff.
    - intros (s' & Hin' & Hlt). rewrite (wf_mark_unique m n s s') by done.
      by apply Qlt_bool_iff.
    - intros Hlt. exists s. split; [done|]. by apply Qlt_bool_iff. }
  assert (Hnd : NoDup (passed ++ failed)) by (by rewrite Hperm).
  split_and!; try done.
  - intros n Hp Hf. apply NoDup_app in Hnd as (_ & Hdisj & _). by apply (Hdisj n).
  - apply sublist_filter_names.
  - apply sublist_filter_names.
Qed.

Lemma get_pass_fail_partition_witness :
  Dict.wf pass_marks /\
  let passed := (get_pass_fail pass_marks default_threshold).1 in
  let failed := (get_pass_fail pass_marks default_threshold).2 in
  (forall n s, (n, s) ∈ pass_marks ->
     (n ∈ passed <-> 40 <= s) /\ (n ∈ failed <-> s < 40)) /\
  (forall n, n ∈ passed -> n ∉ failed) /\
  passed ++ failed ≡ₚ Dict.keys pass_marks /\
  NoDup (passed ++ failed) /\
  sublist passed (Dict.keys pass_marks) /\
  sublist failed (Dict.keys pass_marks).
Proof.
  assert (Hwf : Dict.wf pass_marks) by dict_wf.
  split; [exact Hwf|]. exact (get_pass_fail_partition pass_marks Hwf).
Defined.

Example pass_marks_partition :
  get_pass_fail pass_marks default_threshold = (["Ann"; "Cy"], ["Bo"; "Di"]).
Proof. reflexivity. Qed.

(** ** Extremes *)

Lemma foldl_max_spec (xs : list Q) : forall x : Q,
  let r := foldl (fun best y => if Qlt_bool best y then y else best) x xs in
  r ∈ x :: xs /\ forall y, y ∈ x :: xs -> y <= r.
Proof.
  induction xs as [|z xs IH]; intros x; simpl.
  - split; [left|]. intros y ->%list_elem_of_singleton. apply Qle_refl.
  - destruct (Qlt_bool x z) eqn:E; Qbool.
    + destruct (IH z) as [Hin Hmax]. split; [by right|].
      intros y [->|Hy]%elem_of_cons; [|by apply Hmax].
      apply Qle_trans with z; [by apply Qlt_le_weak|apply Hmax; left].
    + destruct (IH x) as [Hin Hmax]. split.
      * apply elem_of_cons in Hin as [->|Hin]; [left|by do 2 right].
      * intros y [->|[->|Hy]%elem_of_cons]%elem_of_cons.
        -- apply Hmax; left.
        -- apply Qle_trans with x; [done|apply Hmax; left].
        -- by apply Hmax; right.
Qed.

Lemma foldl_min_spec (xs : list Q) : forall x : Q,
  let r := foldl (fun best y => if Qlt_bool y best then y else best) x xs in
  r ∈ x :: xs /\ forall y, y ∈ x :: xs -> r <= y.
Proof.
  induction xs as [|z xs IH]; intros x; simpl.
  - split; [left|]. intros y ->%list_elem_of_singleton. apply Qle_refl.
  - destruct (Qlt_bool z x) eqn:E; Qbool.
    + destruct (IH z) as [Hin Hmin]. split; [by right|].
      intros y [->|Hy]%elem_of_cons; [|by apply Hmin].
      apply Qle_trans with z; [apply Hmin; left|by apply Qlt_le_weak].
    + destruct (IH x) as [Hin Hmin]. split.
      * apply elem_of_cons in Hin as [->|Hin]; [left|by do 2 right].
      * intros y [->|[->|Hy]%elem_of_cons]%elem_of_cons.
        -- apply Hmin; left.
        -- apply Qle_trans with x; [apply Hmin; left|done].
        -- by apply Hmin; right.
Qed.

Lemma py_max_spec (xs : list Q) :
  xs <> [] -> exists r, py_max xs = Return r /\ r ∈ xs /\ forall y, y ∈ xs -> y <= r.
Proof.
  destruct xs as [|x xs]; [done|]. intros _. eexists. split; [done|].
  apply foldl_max_spec.
Qed.

Lemma py_min_spec (xs : list Q) :
  xs <> [] -> exists r, py_min xs = Return r /\ r ∈ xs /\ forall y, y ∈ xs -> r <= y.
Proof.
  destruct xs as [|x xs]; [done|]. intros _. eexists. split; [done|].
  apply foldl_min_spec.
Qed.

Lemma values_nonempty (m : marks_dict) : m <> [] -> Dict.values m <> [].
Proof. by destruct m. Qed.

(** C5. On a non-empty record set [find_max_score] returns the largest mark
    and the names whose mark equals it, all of them and no other, in
    record-set order; [find_min_score] does the same for the smallest
    mark. *)
Theorem find_extreme_scores_all_ties (m : marks_dict) :
  m <> [] ->
  (exists top names,
     find_max_score m = Return (Some top, names) /\
     top ∈ Dict.values m /\
     (forall s, s ∈ Dict.values m -> s <= top) /\
     (forall n, n ∈ names <-> exists s, (n, s) ∈ m /\ s == top) /\
     sublist names (Dict.keys m)) /\
  (exists bottom names,
     find_min_score m = Return (Some bottom, names) /\
     bottom ∈ Dict.values m /\
     (forall s, s ∈ Dict.values m -> bottom <= s) /\
     (forall n, n ∈ names <-> exists s, (n, s) ∈ m /\ s == bottom) /\
     sublist names (Dict.keys m)).
Proof.
  intros Hne. pose proof (values_nonempty m Hne) as Hv. split.
  - destruct (py_max_spec _ Hv) as (top & Hmax & Hin & Hle).
    exists top, (List.filter (fun '(n, s) => Qeq_bool s top) m).*1. split_and!.
    + unfold find_max_score. destruct m; [done|]. by rewrite Hmax.
    + done.
    + done.
    + intros n. rewrite elem_of_filter_names.
      by setoid_rewrite Qeq_bool_iff.
    + apply sublist_filter_names.
  - destruct (py_min_spec _ Hv) as (bottom & Hmin & Hin & Hle).
    exists bottom, (List.filter (fun '(n, s) => Qeq_bool s bottom) m).*1. split_and!.
    + unfold find_min_score. destruct m; [done|]. by rewrite Hmin.
    + done.
    + done.
    + intros n. rewrite elem_of_filter_names.
      by setoid_rewrite Qeq_bool_iff.
    + apply sublist_filter_names.
Qed.

Lemma find_extreme_scores_all_ties_witness :
  tie_marks <> [] /\
  (exists top names,
     find_max_score tie_marks = Return (Some top, names) /\
     top ∈ Dict.values tie_marks /\
     (forall s, s ∈ Dict.values tie_marks -> s <= top) /\
     (forall n, n ∈ names <-> exists s, (n, s) ∈ tie_marks /\ s == top) /\
     sublist names (Dict.keys tie_marks)) /\
  (exists bottom names,
     find_min_score tie_marks = Return (Some bottom, names) /\
     bottom ∈ Dict.values tie_marks /\
     (forall s, s ∈ Dict.values tie_marks -> bottom <= s) /\
     (forall n, n ∈ names <-> exists s, (n, s) ∈ tie_marks /\ s == bottom) /\
     sublist names (Dict.keys tie_marks)).
Proof.
  assert (Hne : tie_marks <> []) by discriminate.
  split; [exact Hne|]. exact (find_extreme_scores_all_ties tie_marks Hne).
Defined.

Example tie_marks_extremes :
  find_max_score tie_marks = Return (Some 92, ["Ann"; "Cy"]) /\
  find_min_score tie_marks = Return (Some 34, ["Bo"; "Di"]).
Proof. by split. Qed.

(** ** Mean *)



Lemma py_len_pos {X : Type} (l : list X) : l <> [] -> 0 < py_len l.
Proof.
  destruct l as [|x l]; [done|]. intros _. unfold py_len, Qlt. simpl. lia.
Qed.

Lemma py_div_nonzero (a b : Q) : ~ b == 0 -> py_div a b = Return (a / b).
Proof.
  intros Hb. unfold py_div. destruct (Qeq_bool b 0) eqn:E; [|done].
  by apply Qeq_bool_iff in E.
Qed.



Example sample_average_value :
  exists q, calculate_average create_sample_data = Return (Some q) /\ q == 412 / 6.
Proof. eexists. split; reflexivity. Qed.

(** ** Median *)

Lemma insert_sorted_Permutation (x : Q) (l : list Q) : insert_sorted x l ≡ₚ x :: l.
Proof.
  induction l as [|y l IH]; simpl; [done|].
  destruct (Qle_bool x y); [done|]. rewrite IH. apply Permutation_swap.
Qed.

Lemma sorted_Permutation (xs : list Q) : sorted xs ≡ₚ xs.
Proof.
  induction xs as [|x xs IH]; simpl; [done|].
  by rewrite insert_sorted_Permutation, IH.
Qed.

Lemma insert_sorted_Sorted (x : Q) (l : list Q) :
  Sorted Qle l -> Sorted Qle (insert_sorted x l).
Proof.
  induction 1 as [|y l Hl IH Hy]; simpl.
  - by repeat constructor.
  - destruct (Qle_bool x y) eqn:E; Qbool.
    + by repeat constructor.
    + constructor; [done|]. destruct Hy as [|z l Hyz]; simpl.
      * constructor. by apply Qlt_le_weak.
      * destruct (Qle_bool x z); constructor; [by apply Qlt_le_weak|done].
Qed.

Lemma sorted_Sorted (xs : list Q) : Sorted Qle (sorted xs).
Proof.
  induction xs as [|x xs IH]; simpl; [constructor|by apply insert_sorted_Sorted].
Qed.

(** An ascending list is left as it is. *)
Lemma sorted_ascending (l : list Q) : Sorted Qle l -> sorted l = l.
Proof.
  induction 1 as [|x l Hl IH Hx]; simpl; [done|]. rewrite IH.
  destruct Hx as [|y l Hxy]; simpl; [done|].
  apply Qle_bool_iff in Hxy. by rewrite Hxy.
Qed.

Lemma insert_sorted_Qeq (x x' : Q) (l l' : list Q) :
  x == x' -> Forall2 Qeq l l' ->
  Forall2 Qeq (insert_sorted x l) (insert_sorted x' l').
Proof.
  intros Hx. induction 1 as [|y y' l l' Hy Hl IH]; simpl.
  - by repeat constructor.
  - rewrite <- Hx, <- Hy. destruct (Qle_bool x y); by repeat constructor.
Qed.

Lemma insert_sorted_comm (x y : Q) (l : list Q) :
  Forall2 Qeq (insert_sorted x (insert_sorted y l)) (insert_sorted y (insert_sorted x l)).
Proof.
  induction l as [|z l IH]; simpl.
  - destruct (Qle_bool x y) eqn:E1, (Qle_bool y x) eqn:E2; Qbool;
      repeat constructor; try done; try (by apply Qle_antisym); lra.
  - destruct (Qle_bool x z) eqn:Exz, (Qle_bool y z) eqn:Eyz; simpl;
      rewrite ?Exz, ?Eyz;
      destruct (Qle_bool x y) eqn:Exy, (Qle_bool y x) eqn:Eyx; simpl;
      rewrite ?Exz, ?Eyz; Qbool;
      first [ lra | repeat (constructor; [first [done | by apply Qle_antisym]|]); done ].
Qed.

Lemma sorted_Permutation_Qeq (xs ys : list Q) :
  xs ≡ₚ ys -> Forall2 Qeq (sorted xs) (sorted ys).
Proof.
  induction 1 as [|x xs ys _ IH|x y xs|xs ys zs _ IH1 _ IH2]; simpl.
  - constructor.
  - by apply insert_sorted_Qeq.
  - apply insert_sorted_comm.
  - by etrans.
Qed.

(** Whatever ascending arrangement of the marks one takes, [sorted] agrees
    with it place by place. *)
Lemma sorted_unique (xs asc : list Q) :
  asc ≡ₚ xs -> Sorted Qle asc -> Forall2 Qeq (sorted xs) asc.
Proof.
  intros Hperm Hasc. rewrite <- (sorted_ascending asc Hasc).
  by apply sorted_Permutation_Qeq.
Qed.

Lemma length_sorted (xs : list Q) : length (sorted xs) = length xs.
Proof. by rewrite sorted_Permutation. Qed.

Lemma py_index_lt (data : list Q) (i : nat) :
  (i < length data)%nat -> exists x, data !! i = Some x /\ py_index data i = Return x.
Proof.
  intros [x Hx]%lookup_lt_is_Some_2. exists x. unfold py_index. by rewrite Hx.
Qed.

Lemma statistics_median_middle (xs asc : list Q) :
  xs <> [] -> asc ≡ₚ xs -> Sorted Qle asc ->
  let n := length xs in
  exists q,
    statistics_median xs = Return q /\
    ((n mod 2 = 1)%nat -> exists mid, asc !! (n / 2)%nat = Some mid /\ q == mid) /\
    ((n mod 2 = 0)%nat ->
     exists a b, asc !! (n / 2 - 1)%nat = Some a /\ asc !! (n / 2)%nat = Some b /\
                 q == (a + b) / 2).
Proof.
  intros Hne Hperm Hasc n.
  pose proof (sorted_unique xs asc Hperm Hasc) as Hsame.
  assert (Hn : (0 < n)%nat) by (subst n; destruct xs; [done|simpl; lia]).
  assert (Hhalf : (n / 2 < n)%nat) by (apply Nat.div_lt; lia).
  unfold statistics_median. rewrite length_sorted. fold n.
  rewrite decide_False by lia.
  destruct (py_index_lt (sorted xs) (n / 2)) as (b & Hb & Hib);
    [by rewrite length_sorted|].
  destruct (Forall2_lookup_l _ _ _ _ _ Hsame Hb) as (b' & Hb' & Hbb).
  destruct (decide (n mod 2 = 1)%nat) as [Hodd|Heven].
  - exists b. split_and!; [done| |lia]. intros _. by exists b'.
  - destruct (py_index_lt (sorted xs) (n / 2 - 1)) as (a & Ha & Hia);
      [rewrite length_sorted; lia|].
    destruct (Forall2_lookup_l _ _ _ _ _ Hsame Ha) as (a' & Ha' & Haa).
    exists ((a + b) / 2). rewrite Hia, Hib. split_and!; [done|lia|].
    intros _. exists a', b'. split_and!; [done..|]. by rewrite Haa, Hbb.
Qed.



Example sample_ascending :
  sorted (Dict.values create_sample_data) = [34; 55; 65; 78; 88; 92].
Proof. reflexivity. Qed.

Example median_odd_count :
  calculate_median [("Ann", 70); ("Bo", 50); ("Cy", 70)] = Return (Some 70).
Proof. reflexivity. Qed.

(** ** Grade distribution *)

Section counter_facts.
Context {K : Type} `{EqDecision K}.
Implicit Types (c : list (K * nat)) (l : list K) (k : K).

Lemma count_step_get c k k' :
  Dict.get_default (count_step c k) k' 0%nat =
  (Dict.get_default c k' 0%nat + if decide (k = k') then 1 else 0)%nat.
Proof.
  unfold count_step, Dict.get_default. destruct (decide (k = k')) as [->|Hne].
  - by rewrite get_set_eq.
  - rewrite get_set_ne by done. simpl. lia.
Qed.

Lemma count_step_keys c k k' :
  k' ∈ Dict.keys (count_step c k) <-> k' ∈ Dict.keys c \/ k' = k.
Proof.
  unfold count_step. rewrite keys_set. case_decide.
  - split; [by left|]. by intros [?| ->].
  - by rewrite elem_of_app, list_elem_of_singleton.
Qed.

Lemma foldl_count_get l : forall c k,
  Dict.get_default (foldl count_step c l) k 0%nat =
  (Dict.get_default c k 0%nat + length (List.filter (fun k' => bool_decide (k' = k)) l))%nat.
Proof.
  induction l as [|x l IH]; intros c k; simpl; [lia|].
  rewrite IH, count_step_get. destruct (decide (x = k)) as [->|Hne].
  - rewrite bool_decide_eq_true_2 by done. simpl. lia.
  - rewrite bool_decide_eq_false_2 by done. lia.
Qed.

Lemma foldl_count_keys l : forall c k,
  k ∈ Dict.keys (foldl count_step c l) <-> k ∈ Dict.keys c \/ k ∈ l.
Proof.
  induction l as [|x l IH]; intros c k; simpl.
  - split; [by left|]. by intros [?|?%elem_of_nil].
  - rewrite IH, count_step_keys, elem_of_cons. tauto.
Qed.

Lemma foldl_count_wf l : forall c, Dict.wf c -> Dict.wf (foldl count_step c l).
Proof.
  induction l as [|x l IH]; intros c Hc; simpl; [done|].
  by apply IH, wf_set.
Qed.

End counter_facts.

Lemma holders_values (g : grade) (grades : dict string grade) :
  holders g grades =
  length (List.filter (fun g' => bool_decide (g' = g)) (Dict.values grades)).
Proof.
  unfold holders, Dict.values. induction grades as [|[n g'] grades IH]; csimpl; [done|].
  destruct (bool_decide (g' = g)); simpl; by rewrite IH.
Qed.

Lemma holders_total (grades : dict string grade) :
  (holders A grades + holders B grades + holders C grades + holders D grades +
   holders F grades)%nat = length grades.
Proof.
  unfold holders. induction grades as [|[n g] grades IH]; simpl; [done|].
  rewrite <- IH. destruct g; simpl; lia.
Qed.

(** C4, as the source has it.  [grade_distribution] counts, for each grade,
    the students who hold it; a grade is a key of the result exactly when
    some student holds it, and a grade nobody holds reads as 0 through
    [get] with default 0, the way the summary reads it.  The five counts
    read so add up to the number of students. *)
Theorem grade_distribution_counts (grades : dict string grade) :
  let dist := grade_distribution grades in
  Dict.wf dist /\
  (forall g, Dict.get_default dist g 0%nat = holders g grades) /\
  (forall g, g ∈ Dict.keys dist <-> (0 < holders g grades)%nat) /\
  (Dict.get_default dist A 0 + Dict.get_default dist B 0 + Dict.get_default dist C 0 +
   Dict.get_default dist D 0 + Dict.get_default dist F 0)%nat = length grades.
Proof.
  intros dist.
  assert (Hget : forall g, Dict.get_default dist g 0%nat = holders g grades).
  { intros g. unfold dist, grade_distribution. unfold Counter. rewrite foldl_count_get.
    by rewrite holders_values. }
  split_and!.
  - apply foldl_count_wf, wf_nil.
  - done.
  - intros g. unfold dist, grade_distribution.
    unfold Counter. rewrite foldl_count_keys, holders_values.
    split.
    + intros [?%elem_of_nil|Hin]; [done|].
      induction (Dict.values grades) as [|g' l IH]; [by apply elem_of_nil in Hin|].
      simpl. apply elem_of_cons in Hin as [->|Hin].
      * rewrite bool_decide_eq_true_2 by done. simpl. lia.
      * destruct (bool_decide (g' = g)); simpl; [lia|by apply IH].
    + intros Hpos. right.
      induction (Dict.values grades) as [|g' l IH]; simpl in Hpos; [lia|].
      destruct (decide (g' = g)) as [->|Hne]; [left|].
      rewrite bool_decide_eq_false_2 in Hpos by done. right. by apply IH.
  - rewrite !Hget. apply holders_total.
Qed.

(** C4, as stated, fails: when nobody holds a grade, the grade is not a key
    of the distribution.  With one student graded B the distribution is
    [{B: 1}]; A, C, D and F are not in it. *)
Lemma grade_distribution_omits_unheld_grades :
  grade_distribution only_B = [(B, 1%nat)] /\
  Dict.mem (grade_distribution only_B) A = false /\
  Dict.get (grade_distribution only_B) A = None /\
  ~ (forall g, g ∈ Dict.keys (grade_distribution only_B)).
Proof.
  split_and!; [done..|]. intros Hall. specialize (Hall A).
  by apply (bool_decide_pack _) in Hall.
Qed.

(** ** Record sets built by the input layer *)

(** Building a record set: one assignment per entry. *)
Lemma build_wf (es : list (string * score)) : forall d : marks_dict,
  Dict.wf d -> Dict.wf (foldl (fun d '(n, s) => Dict.set d n s) d es).
Proof.
  induction es as [|[n s] es IH]; intros d Hd; simpl; [done|].
  by apply IH, wf_set.
Qed.

Lemma build_get (es : list (string * score)) (n : string) : forall d : marks_dict,
  Dict.get (foldl (fun d '(n, s) => Dict.set d n s) d es) n =
  last_mark_from (Dict.get d n) n es.
Proof.
  unfold last_mark_from. induction es as [|[n' s] es IH]; intros d; simpl; [done|].
  rewrite IH. f_equal. destruct (decide (n' = n)) as [->|Hne].
  - apply get_set_eq.
  - by apply get_set_ne.
Qed.

Lemma first_seen_from_ext (ns : list string) : forall seen seen' : list string,
  (forall n, n ∈ seen <-> n ∈ seen') ->
  first_seen_from seen ns = first_seen_from seen' ns.
Proof.
  induction ns as [|n ns IH]; intros seen seen' Hsame; simpl; [done|].
  destruct (decide (n ∈ seen)) as [Hin|Hin], (decide (n ∈ seen')) as [Hin'|Hin'].
  - by apply IH.
  - by apply Hsame in Hin.
  - by apply Hsame in Hin'.
  - f_equal. apply IH. intros x. rewrite !elem_of_cons. by rewrite Hsame.
Qed.

Lemma build_keys (es : list (string * score)) : forall d : marks_dict,
  Dict.keys (foldl (fun d '(n, s) => Dict.set d n s) d es) =
  Dict.keys d ++ first_seen_from (Dict.keys d) es.*1.
Proof.
  induction es as [|[n s] es IH]; intros d; csimpl.
  - by rewrite app_nil_r.
  - rewrite IH, keys_set. destruct (decide (n ∈ Dict.keys d)) as [Hin|Hin]; [done|].
    rewrite <- app_assoc. simpl. do 2 f_equal. apply first_seen_from_ext.
    intros x. rewrite elem_of_app, !elem_of_cons, elem_of_nil. tauto.
Qed.

Lemma elem_of_first_seen_from (ns seen : list string) (n : string) :
  n ∈ first_seen_from seen ns -> n ∈ ns.
Proof.
  revert seen. induction ns as [|n' ns IH]; intros seen; simpl; [done|].
  destruct (decide (n' ∈ seen)).
  - intros ?%IH. by right.
  - intros [->|?%IH]%elem_of_cons; [left|by right].
Qed.

(** The record set of a list of entries. *)
Lemma build_spec (P : string -> Prop) (es : list (string * score)) (d : marks_dict) :
  d = foldl (fun d '(n, s) => Dict.set d n s) [] es ->
  Forall (fun e => P e.1) es ->
  Dict.wf d /\
  (forall n, n ∈ Dict.keys d -> P n) /\
  (forall n, Dict.get d n = last_mark n es) /\
  Dict.keys d = first_seen es.*1.
Proof.
  intros -> Hes. split_and!.
  - apply build_wf, wf_nil.
  - intros n. rewrite build_keys. simpl. intros Hn%elem_of_first_seen_from.
    apply list_elem_of_fmap in Hn as (e & -> & He).
    by apply (proj1 (Forall_forall _ _) Hes).
  - intros n. by rewrite build_get.
  - by rewrite build_keys.
Qed.

(** ** Text *)

Lemma lstrip_starts_clean (cs : list ascii) : starts_clean (lstrip cs).
Proof.
  induction cs as [|c cs IH]; simpl; [done|]. by destruct (is_space c) eqn:E.
Qed.

Lemma lstrip_clean (cs : list ascii) : starts_clean cs -> lstrip cs = cs.
Proof. destruct cs as [|c cs]; simpl; [done|]. by intros ->. Qed.

Lemma lstrip_suffix (cs : list ascii) : exists spaces, cs = spaces ++ lstrip cs.
Proof.
  induction cs as [|c cs [spaces IH]]; simpl; [by exists []|].
  destruct (is_space c).
  - exists (c :: spaces). simpl. by f_equal.
  - by exists [].
Qed.

Lemma starts_clean_app (cs cs' : list ascii) : starts_clean (cs ++ cs') -> cs <> [] -> starts_clean cs.
Proof. by destruct cs. Qed.

(** Stripping what is stripped changes nothing. *)
Lemma strip_strip (s : string) : strip (strip s) = strip s.
Proof.
  unfold strip. rewrite list_ascii_of_string_of_list_ascii. f_equal.
  set (cs := list_ascii_of_string s). unfold rstrip at 2.
  set (u := rev (lstrip (rev cs))).
  assert (Hu : starts_clean (rev u)).
  { unfold u. rewrite rev_involutive. apply lstrip_starts_clean. }
  assert (Hback : starts_clean (rev (lstrip u))).
  { destruct (lstrip_suffix u) as [spaces Hsp].
    destruct (decide (rev (lstrip u) = [])) as [->|Hne]; [done|].
    apply (starts_clean_app _ (rev spaces)); [|done].
    by rewrite <- rev_app_distr, <- Hsp. }
  unfold rstrip. rewrite (lstrip_clean _ Hback), rev_involutive.
  apply lstrip_clean, lstrip_starts_clean.
Qed.

Section input_facts.
Variable float : string -> option Q.

Lemma load_row_entry (r : list string) (d : marks_dict) :
  load_row float d r =
  match row_entry float r with
  | Some (n, s) => Dict.set d n s
  | None => d
  end.
Proof.
  unfold load_row, row_entry. destruct r as [|f0 [|f1 r]]; [done..|]. simpl.
  destruct (decide (strip f0 = "")); [done|]. by destruct (float (strip f1)).
Qed.

Lemma foldl_load_row (rows : list (list string)) : forall d : marks_dict,
  foldl (load_row float) d rows =
  foldl (fun d '(n, s) => Dict.set d n s) d (omap (row_entry float) rows).
Proof.
  induction rows as [|r rows IH]; intros d; simpl; [done|].
  rewrite IH, load_row_entry. by destruct (row_entry float r) as [[n s]|].
Qed.

Lemma load_from_csv_entries (file : option (list (list string))) :
  load_from_csv float file =
  foldl (fun d '(n, s) => Dict.set d n s) [] (csv_entries float file).
Proof.
  destruct file as [[|r rows]|]; [done| |done].
  unfold load_from_csv, csv_entries. apply foldl_load_row.
Qed.

Lemma row_entry_name (r : list string) (e : string * score) :
  row_entry float r = Some e -> stripped_name e.1.
Proof.
  unfold row_entry. destruct r as [|f0 [|f1 r]]; [done..|]. simpl.
  destruct (decide (strip f0 = "")); [done|].
  destruct (float (strip f1)); simpl; [|done]. intros [= <-].
  split; [done|apply strip_strip].
Qed.

Lemma csv_entries_names (file : option (list (list string))) :
  Forall (fun e => stripped_name e.1) (csv_entries float file).
Proof.
  destruct file as [rows|]; [|constructor]. simpl.
  apply Forall_forall. intros e (r & _ & He)%list_elem_of_omap.
  by apply row_entry_name in He.
Qed.

Lemma manual_entry_loop_entries (k : nat) : forall (lines : list string) (d d' : marks_dict),
  (length lines <= k)%nat ->
  manual_entry_loop float d lines = Return d' ->
  d' = foldl (fun d '(n, s) => Dict.set d n s) d (manual_entries float lines) /\
  Forall (fun e => stripped_name e.1) (manual_entries float lines).
Proof.
  induction k as [|k IH]; intros [|l1 rest] d d' Hlen; simpl in *; try done; [lia|].
  destruct (decide (lower (strip l1) = "done")); [by intros [= ->]|].
  destruct (decide (strip l1 = "")) as [|Hname]; [apply IH; lia|].
  destruct rest as [|l2 rest]; [done|]. simpl in *.
  destruct (decide (lower (strip l2) = "done")); [by intros [= ->]|].
  destruct (float (strip l2)) as [s|]; simpl.
  - intros Hloop. apply IH in Hloop as [-> Hall]; [|lia]. split; [done|].
    constructor; [|done]. split; [done|apply strip_strip].
  - apply IH; lia.
Qed.

Lemma manual_entry_entries (lines : list string) (d : marks_dict) :
  manual_entry float lines = Return d ->
  d = foldl (fun d '(n, s) => Dict.set d n s) [] (manual_entries float lines) /\
  Forall (fun e => stripped_name e.1) (manual_entries float lines).
Proof. by apply (manual_entry_loop_entries (length lines)). Qed.

(** The names the input layer stores are not empty and are stripped. *)
Lemma input_layer_names (d : marks_dict) (es : list (string * score)) :
  input_layer_builds float d es ->
  Dict.wf d /\
  (forall n, n ∈ Dict.keys d -> stripped_name n) /\
  (forall n, Dict.get d n = last_mark n es) /\
  Dict.keys d = first_seen es.*1.
Proof.
  intros [(file & <- & <-)|(lines & Hd & <-)].
  - apply build_spec; [apply load_from_csv_entries|apply csv_entries_names].
  - apply manual_entry_entries in Hd as [-> Hall]. by apply build_spec.
Qed.

(** C3, as the source has it.  In a record set built by the input layer
    the names are unique and non-empty, each name holds the mark entered
    last for it, and the names stand in the order in which each was FIRST
    entered: entering a name again changes its mark and not its place. *)
Theorem input_layer_duplicate_names (d : marks_dict) (es : list (string * score)) :
  input_layer_builds float d es ->
  Dict.wf d /\
  (forall n, n ∈ Dict.keys d -> n <> "") /\
  (forall n, Dict.get d n = last_mark n es) /\
  Dict.keys d = first_seen es.*1.
Proof.
  intros (Hwf & Hnames & Hget & Hkeys)%input_layer_names.
  split_and!; [done| |done..]. intros n Hn. by apply Hnames.
Qed.
End input_facts.

Lemma dup_rows_build :
  input_layer_builds float_of_literal [("Ann", 3); ("Bo", 2)] dup_entries.
Proof. left. by exists (Some dup_rows). Qed.

Lemma dup_lines_build :
  input_layer_builds float_of_literal [("Ann", 3); ("Bo", 2)] dup_entries.
Proof. right. by exists dup_lines. Qed.

Lemma input_layer_duplicate_names_witness :
  input_layer_builds float_of_literal [("Ann", 3); ("Bo", 2)] dup_entries /\
  Dict.wf [("Ann", 3); ("Bo", 2)] /\
  (forall n, n ∈ Dict.keys [("Ann", 3); ("Bo", 2)] -> n <> "") /\
  (forall n, Dict.get [("Ann", 3); ("Bo", 2)] n = last_mark n dup_entries) /\
  Dict.keys [("Ann", 3); ("Bo", 2)] = first_seen dup_entries.*1.
Proof.
  split; [exact dup_lines_build|].
  exact (input_layer_duplicate_names float_of_literal _ _ dup_lines_build).
Defined.

(** C3, as stated, fails: a name entered again does not move to the place
    of its last entry.  From the rows (or the typed lines) Ann 1, Bo 2,
    Ann 3 the input layer builds [{Ann: 3, Bo: 2}], Ann before Bo, where
    the order of last entry is Bo, Ann. *)
Lemma duplicate_name_keeps_first_place :
  load_from_csv float_of_literal (Some dup_rows) = [("Ann", 3); ("Bo", 2)] /\
  manual_entry float_of_literal dup_lines = Return [("Ann", 3); ("Bo", 2)] /\
  csv_entries float_of_literal (Some dup_rows) = dup_entries /\
  manual_entries float_of_literal dup_lines = dup_entries /\
  last_seen dup_entries.*1 = ["Bo"; "Ann"] /\
  ~ (forall d es, input_layer_builds float_of_literal d es ->
       Dict.keys d = last_seen es.*1).
Proof.
  split_and!; [done..|]. intros Hall.
  by specialize (Hall _ _ dup_rows_build).
Qed.

(** ** Export and load again *)

Section round_trip.
Variable float : string -> option Q.
Variable str : Q -> string.

Lemma load_exported_rows (grades : dict string grade) (m : marks_dict) :
  forall acc : marks_dict,
  NoDup (Dict.keys acc ++ Dict.keys m) ->
  Forall stripped_name (Dict.keys m) ->
  Forall (fun s => exists s', float (strip (str s)) = Some s' /\ s' == s) (Dict.values m) ->
  exists m' : marks_dict,
    foldl (load_row float) acc
      (map (fun '(name, marks) =>
              [name; str marks; from_option grade_label "" (Dict.get grades name)]) m)
    = acc ++ m' /\
    Dict.keys m' = Dict.keys m /\
    Forall2 Qeq (Dict.values m') (Dict.values m).
Proof.
  unfold Dict.keys, Dict.values.
  induction m as [|[n s] m IH]; intros acc Hnd Hnames Hmarks; csimpl in *.
  - exists []. by rewrite app_nil_r.
  - apply Forall_cons in Hnames as [[Hn Hstrip] Hnames].
    apply Forall_cons in Hmarks as [(s' & Hs' & Hss) Hmarks].
    apply NoDup_app in Hnd as (Hacc & Hdisj & [Hnew Hm]%NoDup_cons).
    rewrite Hstrip, decide_False, Hs' by done.
    rewrite set_fresh by (intros Hin; apply (Hdisj _ Hin); left).
    destruct (IH (acc ++ [(n, s')])) as (m' & Hload & Hkeys & Hvals); [|done..|].
    { rewrite fmap_app. csimpl. rewrite <- app_assoc. csimpl.
      apply NoDup_app. split_and!; [done| |by apply NoDup_cons].
      intros x Hx. by apply Hdisj. }
    exists ((n, s') :: m'). rewrite <- app_assoc in Hload. csimpl.
    split_and!; [exact Hload|by f_equal|by constructor].
Qed.

Lemma load_exported (m : marks_dict) (grades : dict string grade) :
  Dict.wf m ->
  Forall stripped_name (Dict.keys m) ->
  Forall (fun s => exists s', float (strip (str s)) = Some s' /\ s' == s) (Dict.values m) ->
  float "Marks" = None ->
  let m' := load_from_csv float (Some (export_to_csv str m grades)) in
  Dict.keys m' = Dict.keys m /\ Forall2 Qeq (Dict.values m') (Dict.values m).
Proof.
  intros Hm Hnames Hmarks Hheader m'.
  destruct (load_exported_rows grades m []) as (m'' & Hload & Hkeys & Hvals); [done..|].
  assert (m' = m'') as ->; [|done].
  unfold m', load_from_csv, export_to_csv, start_i; simpl. by rewrite Hheader.
Qed.


(** X14. Every record set that the input layer builds has such names: it
    is read back from its export, the names in the same order with the
    original marks. *)
Corollary input_layer_export_load (d : marks_dict) (es : list (string * score))
    (grades : dict string grade) :
  input_layer_builds float d es ->
  Forall (fun s => exists s', float (strip (str s)) = Some s' /\ s' == s) (Dict.values d) ->
  float "Marks" = None ->
  let d' := load_from_csv float (Some (export_to_csv str d grades)) in
  Dict.keys d' = Dict.keys d /\ Forall2 Qeq (Dict.values d') (Dict.values d).
Proof.
  intros (Hwf & Hnames & _)%input_layer_names Hmarks Hheader.
  apply load_exported; [done| |done..]. by apply Forall_forall.
Qed.
End round_trip.


Example sample_export :
  export_to_csv str_of_number create_sample_data (assign_grades create_sample_data) =
  [["Name"; "Marks"; "Grade"]; ["Alice"; "78.0"; "C"]; ["Bob"; "92.0"; "A"];
   ["Charlie"; "65.0"; "D"]; ["Deepa"; "55.0"; "F"]; ["Esha"; "34.0"; "F"];
   ["Faiz"; "88.0"; "B"]].
Proof. reflexivity. Qed.


(** * Further properties of the source *)

(** ** Statistics together *)

Lemma calculate_average_value (m : marks_dict) :
  m <> [] ->
  calculate_average m = Return (Some (py_sum (Dict.values m) / py_len m)).
Proof.
  intros Hne. pose proof (py_len_pos m Hne) as Hpos.
  unfold calculate_average. destruct m; [done|]. rewrite py_div_nonzero; [done|].
  intros Hz. rewrite Hz in Hpos. by apply Qlt_irrefl in Hpos.
Qed.

Lemma Sorted_lookup_le (l : list Q) :
  Sorted Qle l ->
  forall (i j : nat) (a b : Q),
  (i <= j)%nat -> l !! i = Some a -> l !! j = Some b -> a <= b.
Proof.
  intros Hl. apply Sorted_StronglySorted in Hl; [|intros x y z; apply Qle_trans].
  induction Hl as [|x l Hl IH Hx]; intros i j a b Hij Ha Hb; [done|].
  destruct i as [|i], j as [|j]; simpl in *; simplify_eq.
  - apply Qle_refl.
  - apply (proj1 (Forall_forall _ _) Hx). by eapply list_elem_of_lookup_2.
  - lia.
  - apply (IH i j); [lia|done..].
Qed.

Lemma statistics_median_returns (xs : list Q) :
  xs <> [] ->
  exists q, statistics_median xs = Return q /\
    exists a b, a ∈ xs /\ b ∈ xs /\ a <= q <= b.
Proof.
  intros Hne.
  destruct (statistics_median_middle xs (sorted xs) Hne (sorted_Permutation xs)
              (sorted_Sorted xs)) as (q & Hq & Hodd & Heven).
  exists q. split; [done|].
  pose proof (Sorted_lookup_le (sorted xs) (sorted_Sorted xs)) as Hle.
  destruct (Nat.mod_bound_pos (length xs) 2) as [_ Hlt]; [lia..|].
  destruct (decide (length xs mod 2 = 1)%nat) as [H1|H1].
  - destruct (Hodd H1) as (mid & Hmid & Hqm). exists mid, mid.
    assert (mid ∈ xs) by (rewrite <- (sorted_Permutation xs); by eapply list_elem_of_lookup_2).
    split_and!; [done..| |]; rewrite Hqm; apply Qle_refl.
  - destruct Heven as (a & b & Ha & Hb & Hq'); [lia|]. exists a, b.
    assert (a ∈ xs) by (rewrite <- (sorted_Permutation xs); by eapply list_elem_of_lookup_2).
    assert (b ∈ xs) by (rewrite <- (sorted_Permutation xs); by eapply list_elem_of_lookup_2).
    assert (a <= b) by (apply (Hle (length xs / 2 - 1)%nat (length xs / 2)%nat); [lia|done..]).
    split_and!; [done..| |]; rewrite Hq'.
    + apply Qle_shift_div_l; [done|]. lra.
    + apply Qle_shift_div_r; [done|]. lra.
Qed.



Lemma filter_names_all (f : string * score -> bool) (m : marks_dict) :
  (forall e, e ∈ m -> f e = true) -> (List.filter f m).*1 = Dict.keys m.
Proof.
  unfold Dict.keys. induction m as [|e m IH]; intros Hall; simpl; [done|].
  rewrite Hall by left. csimpl. f_equal. apply IH. intros e' He'. apply Hall. by right.
Qed.

Lemma find_max_score_value (m : marks_dict) :
  m <> [] ->
  exists top,
    find_max_score m =
      Return (Some top, (List.filter (fun '(n, s) => Qeq_bool s top) m).*1) /\
    top ∈ Dict.values m /\ forall s, s ∈ Dict.values m -> s <= top.
Proof.
  intros Hne. destruct (py_max_spec _ (values_nonempty m Hne)) as (top & Hmax & Hin & Hle).
  exists top. split_and!; [|done..].
  unfold find_max_score. destruct m; [done|]. by rewrite Hmax.
Qed.

Lemma find_min_score_value (m : marks_dict) :
  m <> [] ->
  exists bottom,
    find_min_score m =
      Return (Some bottom, (List.filter (fun '(n, s) => Qeq_bool s bottom) m).*1) /\
    bottom ∈ Dict.values m /\ forall s, s ∈ Dict.values m -> bottom <= s.
Proof.
  intros Hne. destruct (py_min_spec _ (values_nonempty m Hne)) as (bottom & Hmin & Hin & Hle).
  exists bottom. split_and!; [|done..].
  unfold find_min_score. destruct m; [done|]. by rewrite Hmin.
Qed.





(** X3. On a non-empty record set the names returned with the largest and
    with the smallest mark are listed once each; when the two marks are
    equal both lists are all the names, otherwise no name is in both. *)
Theorem tie_lists_of_extremes (m : marks_dict) :
  Dict.wf m -> m <> [] ->
  exists bottom top names_bottom names_top,
    find_min_score m = Return (Some bottom, names_bottom) /\
    find_max_score m = Return (Some top, names_top) /\
    NoDup names_bottom /\ NoDup names_top /\
    (top == bottom -> names_bottom = Dict.keys m /\ names_top = Dict.keys m) /\
    (~ top == bottom -> forall n, n ∈ names_top -> n ∉ names_bottom).
Proof.
  intros Hwf Hne.
  destruct (find_min_score_value m Hne) as (bottom & Hmin & _ & Hlo).
  destruct (find_max_score_value m Hne) as (top & Hmax & _ & Hhi).
  eexists bottom, top, _, _. split_and!; [exact Hmin|exact Hmax|..].
  - apply (sublist_NoDup _ (Dict.keys m)); [done|apply sublist_filter_names].
  - apply (sublist_NoDup _ (Dict.keys m)); [done|apply sublist_filter_names].
  - intros Heq.
    assert (Hall : forall n s, (n, s) ∈ m -> s == top /\ s == bottom).
    { intros n s Hin.
      assert (Hs : s ∈ Dict.values m) by (apply list_elem_of_fmap; by exists (n, s)).
      pose proof (Hlo s Hs). pose proof (Hhi s Hs).
      split; lra. }
    split; apply filter_names_all; intros [n s] Hin; apply Qeq_bool_iff;
      by apply (Hall n s).
  - intros Hneq n [s [Hin Hs]]%elem_of_filter_names [s' [Hin' Hs']]%elem_of_filter_names.
    apply Qeq_bool_iff in Hs, Hs'.
    rewrite (wf_mark_unique m n s s' Hwf Hin Hin') in Hs.
    apply Hneq. by rewrite <- Hs, <- Hs'.
Qed.

Lemma tie_lists_of_extremes_witness :
  Dict.wf tie_marks /\ tie_marks <> [] /\
  exists bottom top names_bottom names_top,
    find_min_score tie_marks = Return (Some bottom, names_bottom) /\
    find_max_score tie_marks = Return (Some top, names_top) /\
    NoDup names_bottom /\ NoDup names_top /\
    (top == bottom -> names_bottom = Dict.keys tie_marks /\ names_top = Dict.keys tie_marks) /\
    (~ top == bottom -> forall n, n ∈ names_top -> n ∉ names_bottom).
Proof.
  assert (Hwf : Dict.wf tie_marks) by dict_wf.
  assert (Hne : tie_marks <> []) by discriminate.
  split_and!; [exact Hwf|exact Hne|]. exact (tie_lists_of_extremes tie_marks Hwf Hne).
Defined.

(** ** Grades against the table of the specification *)

Lemma grade_of_band (s : score) : grade_of s = band_grade s <-> ~ in_gap s.
Proof.
  unfold grade_of, band_grade, in_gap, float_89_9999, float_79_9999, float_69_9999.
  destruct (Qle_bool 90 s) eqn:E90, (Qle_bool 80 s) eqn:E80, (Qle_bool 70 s) eqn:E70,
    (Qle_bool 60 s) eqn:E60; simpl;
    repeat match goal with
    | |- context [Qle_bool s ?c] => destruct (Qle_bool s c) eqn:?
    end; simpl; Qbool;
    (split; [intros Heq; try discriminate Heq; intros [[??]|[[??]|[??]]]; lra
            |intros Hgap; try reflexivity; exfalso; try lra; apply Hgap;
             first [left; split; lra|right; left; split; lra|right; right; split; lra]]).
Qed.

Lemma grade_of_not_F (s : score) : grade_of s <> F -> 60 <= s.
Proof.
  intros Hg. destruct (Qlt_le_dec s 60) as [Hlt|?]; [|done].
  destruct Hg. apply grade_of_gap. by do 3 right.
Qed.

(** X4. The grade the chain gives agrees with the half-open table of the
    specification (A from 90, B from 80, C from 70, D from 60, else F)
    exactly for the marks outside the three gaps between a closing literal
    and the next threshold; inside a gap the chain gives F and the table
    does not. *)
Theorem grade_of_agrees_outside_gaps (s : score) :
  (grade_of s = band_grade s <-> ~ in_gap s) /\
  (in_gap s <-> grade_of s = F /\ band_grade s <> F).
Proof.
  split; [apply grade_of_band|]. split.
  - intros Hgap. assert (Hf : grade_of s = F).
    { apply grade_of_gap. destruct Hgap as [?|[?|?]]; auto. }
    split; [done|]. intros Hb. rewrite <- Hf in Hb.
    symmetry in Hb. by apply grade_of_band in Hb.
  - intros [Hf Hb]. destruct (decide (grade_of s = band_grade s)) as [Heq|Hne].
    + congruence.
    + unfold in_gap.
      destruct (Qlt_le_dec float_89_9999 s), (Qlt_le_dec s 90),
        (Qlt_le_dec float_79_9999 s), (Qlt_le_dec s 80),
        (Qlt_le_dec float_69_9999 s), (Qlt_le_dec s 70); auto;
        destruct Hne; apply grade_of_band; unfold in_gap;
        intros [[??]|[[??]|[??]]]; lra.
Qed.

(** X5. A whole-number mark is never in a gap: it is graded by the
    half-open table. *)
Theorem whole_mark_grade (z : Z) : grade_of (inject_Z z) = band_grade (inject_Z z).
Proof.
  apply grade_of_band. unfold in_gap, float_89_9999, float_79_9999, float_69_9999.
  unfold Qlt, inject_Z; simpl. lia.
Qed.

(** ** Grades, pass and fail, and the distribution *)

Lemma assign_grades_get_inv (m : marks_dict) (n : string) (g : grade) :
  Dict.wf m -> Dict.get (assign_grades m) n = Some g ->
  exists s, (n, s) ∈ m /\ g = grade_of s.
Proof.
  intros Hm Hget. apply get_Some in Hget.
  - rewrite assign_grades_fmap in Hget by done.
    apply list_elem_of_fmap in Hget as ([n' s] & [= -> ->] & Hin). by exists s.
  - unfold Dict.wf. by rewrite assign_grades_keys.
Qed.

(** X6. Grades and the pass list agree: a student graded A, B, C or D has
    passed the threshold 40 and is not in the failed list, and every failed
    student is graded F. *)
Theorem graded_above_F_passed (m : marks_dict) :
  Dict.wf m ->
  let passed := (get_pass_fail m default_threshold).1 in
  let failed := (get_pass_fail m default_threshold).2 in
  forall n g, Dict.get (assign_grades m) n = Some g ->
    (g <> F -> n ∈ passed /\ n ∉ failed) /\ (n ∈ failed -> g = F).
Proof.
  intros Hm passed failed n g (s & Hin & ->)%assign_grades_get_inv; [|done].
  assert (Hfail : n ∈ failed -> s < 40).
  { unfold failed, get_pass_fail; simpl. rewrite elem_of_filter_names.
    intros (s' & Hin' & Hlt). rewrite (wf_mark_unique m n s s') by done.
    by apply Qlt_bool_iff. }
  split.
  - intros Hg%grade_of_not_F. split.
    + unfold passed, get_pass_fail; simpl. apply elem_of_filter_names.
      exists s. split; [done|]. apply Qle_bool_iff. unfold default_threshold. lra.
    + intros Hlt%Hfail. lra.
  - intros Hlt%Hfail. apply grade_of_gap. do 3 right. lra.
Qed.

Lemma graded_above_F_passed_witness :
  Dict.wf create_sample_data /\
  let passed := (get_pass_fail create_sample_data default_threshold).1 in
  let failed := (get_pass_fail create_sample_data default_threshold).2 in
  forall n g, Dict.get (assign_grades create_sample_data) n = Some g ->
    (g <> F -> n ∈ passed /\ n ∉ failed) /\ (n ∈ failed -> g = F).
Proof.
  assert (Hwf : Dict.wf create_sample_data) by dict_wf.
  split; [exact Hwf|]. exact (graded_above_F_passed create_sample_data Hwf).
Defined.

Lemma assign_grades_values (m : marks_dict) :
  Dict.wf m -> Dict.values (assign_grades m) = grade_of <$> Dict.values m.
Proof.
  intros Hm. rewrite assign_grades_fmap by done. unfold Dict.values.
  rewrite <- !list_fmap_compose. apply list_fmap_ext. by intros ? [??].
Qed.

(** X7. The distribution of the grades that [assign_grades] gives counts,
    for each grade, the students whose mark the chain grades so. *)
Theorem distribution_of_assigned_grades (m : marks_dict) :
  Dict.wf m ->
  forall g, Dict.get_default (grade_distribution (assign_grades m)) g 0%nat = graded g m.
Proof.
  intros Hm g. unfold grade_distribution, Counter.
  rewrite foldl_count_get, assign_grades_values by done. simpl.
  unfold graded, Dict.values. clear Hm.
  induction m as [|[n s] m IH]; csimpl; [done|].
  destruct (bool_decide (grade_of s = g)); simpl; by rewrite IH.
Qed.

Lemma distribution_of_assigned_grades_witness :
  Dict.wf create_sample_data /\
  forall g, Dict.get_default (grade_distribution (assign_grades create_sample_data)) g 0%nat
            = graded g create_sample_data.
Proof.
  assert (Hwf : Dict.wf create_sample_data) by dict_wf.
  split; [exact Hwf|]. exact (distribution_of_assigned_grades create_sample_data Hwf).
Defined.

(** ** Loading rows *)


Section load_facts.
Variable float : string -> option Q.
(** [float] reads through the white space around a number. *)
Hypothesis float_strip : forall f, float (strip f) = float f.





End load_facts.



Example rows_with_junk_load :
  load_from_csv float_of_text (Some rows_with_junk) = [("Ann", 91); ("Di", 40)].
Proof. reflexivity. Qed.

(** ** Manual entry *)

Section manual_facts.
Variable float : string -> option Q.

Lemma manual_entry_loop_done (k : nat) :
  forall (lines : list string) (d : marks_dict),
  (length lines <= k)%nat ->
  (Exists is_done lines -> exists d', manual_entry_loop float d lines = Return d') /\
  (~ Exists is_done lines -> manual_entry_loop float d lines = Raise EOFError).
Proof.
  unfold is_done.
  induction k as [|k IH]; intros [|l1 rest] d Hlen; simpl in *; try lia.
  - split; [by intros ?%Exists_nil|done].
  - split; [by intros ?%Exists_nil|done].
  - destruct (decide (lower (strip l1) = "done")) as [Hd1|Hd1].
    { split; [by eexists|]. intros Hno. destruct Hno. by left. }
    assert (Hrest : Exists (fun l => lower (strip l) = "done") (l1 :: rest) <->
                    Exists (fun l => lower (strip l) = "done") rest).
    { rewrite Exists_cons. split; [by intros [?|?]|by right]. }
    rewrite Hrest. destruct (decide (strip l1 = "")); [apply IH; lia|].
    destruct rest as [|l2 rest]; [split; [by intros ?%Exists_nil|done]|]. simpl in *.
    destruct (decide (lower (strip l2) = "done")) as [Hd2|Hd2].
    { split; [by eexists|]. intros Hno. destruct Hno. by left. }
    assert (Hrest' : Exists (fun l => lower (strip l) = "done") (l2 :: rest) <->
                     Exists (fun l => lower (strip l) = "done") rest).
    { rewrite Exists_cons. split; [by intros [?|?]|by right]. }
    rewrite Hrest'. destruct (float (strip l2)); apply IH; lia.
Qed.

(** X10. A manual session returns a record set exactly when some typed
    line, trimmed and in lower case, reads done; when no line does, the
    lines run out and the session ends in [EOFError]. *)
Theorem manual_entry_returns_iff_done (lines : list string) :
  ((exists d, manual_entry float lines = Return d) <-> Exists is_done lines) /\
  (manual_entry float lines = Raise EOFError <-> ~ Exists is_done lines).
Proof.
  destruct (manual_entry_loop_done (length lines) lines [] (le_n _)) as [Hyes Hno].
  fold (manual_entry float lines) in Hyes, Hno.
  destruct (decide (Exists is_done lines)) as [Hd|Hd].
  - destruct (Hyes Hd) as [d' Hd']. split; split.
    + done.
    + by exists d'.
    + intros Hraise. congruence.
    + done.
  - specialize (Hno Hd). split; split.
    + intros [d' Hd']. congruence.
    + done.
    + done.
    + done.
Qed.

Lemma manual_entry_loop_after_done (k : nat) :
  forall (before : list string) (d : marks_dict) (l : string) (after : list string),
  (length before <= k)%nat -> is_done l ->
  manual_entry_loop float d (before ++ l :: after) =
  manual_entry_loop float d (before ++ [l]).
Proof.
  unfold is_done.
  induction k as [|k IH]; intros [|l1 before] d l after Hlen Hl; simpl in *; try lia.
  - by rewrite !decide_True.
  - by rewrite !decide_True.
  - destruct (decide (lower (strip l1) = "done")); [done|].
    destruct (decide (strip l1 = "")); [apply IH; [lia|done]|].
    destruct before as [|l2 before]; simpl in *.
    + by rewrite !decide_True.
    + destruct (decide (lower (strip l2) = "done")); [done|].
      destruct (float (strip l2)); apply IH; (lia || done).
Qed.

(** X11. What is typed after a line that reads done is never read: the
    session returns the same with or without it. *)
Theorem manual_entry_stops_at_done (before after : list string) (l : string) :
  is_done l ->
  manual_entry float (before ++ l :: after) = manual_entry float (before ++ [l]) /\
  exists d, manual_entry float (before ++ l :: after) = Return d.
Proof.
  intros Hl. split.
  - by apply (manual_entry_loop_after_done (length before)).
  - destruct (manual_entry_loop_done (length (before ++ l :: after))
                (before ++ l :: after) [] (le_n _)) as [Hyes _].
    apply Hyes. apply Exists_exists. exists l. split; [|done].
    apply elem_of_app. right. left.
Qed.

Lemma manual_entries_not_done (k : nat) : forall lines : list string,
  (length lines <= k)%nat ->
  Forall (fun e => ~ is_done e.1) (manual_entries float lines).
Proof.
  unfold is_done.
  induction k as [|k IH]; intros [|l1 rest] Hlen; simpl in *; try lia; try done.
  destruct (decide (lower (strip l1) = "done")) as [|Hd1]; [done|].
  destruct (decide (strip l1 = "")); [apply IH; lia|].
  destruct rest as [|l2 rest]; [done|]. simpl in *.
  destruct (decide (lower (strip l2) = "done")); [done|].
  destruct (float (strip l2)); [|apply IH; lia].
  constructor; [|apply IH; lia]. simpl. by rewrite strip_strip.
Qed.

(** X12. No student entered by hand is called done: a name that reads
    done, in any case and with any white space around it, ends the session
    instead of being stored. *)
Theorem manual_entry_never_stores_done (lines : list string) (d : marks_dict) :
  manual_entry float lines = Return d ->
  forall n, n ∈ Dict.keys d -> ~ is_done n.
Proof.
  intros [-> _]%manual_entry_entries.
  destruct (build_spec (fun n => ~ is_done n) (manual_entries float lines) _ eq_refl)
    as (_ & Hnames & _); [|done].
  apply (manual_entries_not_done (length lines)). lia.
Qed.

(** X13. Every name that the input layer stores, from a file or typed, is
    free of white space at both ends. *)
Theorem input_layer_names_stripped (d : marks_dict) (es : list (string * score)) :
  input_layer_builds float d es ->
  forall n, n ∈ Dict.keys d -> strip n = n.
Proof.
  intros (_ & Hnames & _)%input_layer_names n Hn. by apply Hnames.
Qed.
End manual_facts.

Lemma typed_lines_done : is_done " DONE ".
Proof. reflexivity. Qed.

Lemma manual_entry_stops_at_done_witness :
  is_done " DONE " /\
  manual_entry float_of_literal
    (["Ann"; "91"; ""; "Bo"; "x"; "Cy"; "55"] ++ " DONE " :: ["Di"; "70"]) =
  manual_entry float_of_literal (["Ann"; "91"; ""; "Bo"; "x"; "Cy"; "55"] ++ [" DONE "]) /\
  exists d, manual_entry float_of_literal
    (["Ann"; "91"; ""; "Bo"; "x"; "Cy"; "55"] ++ " DONE " :: ["Di"; "70"]) = Return d.
Proof.
  split; [exact typed_lines_done|].
  exact (manual_entry_stops_at_done float_of_literal _ _ _ typed_lines_done).
Defined.

Lemma typed_lines_return :
  manual_entry float_of_literal typed_lines = Return [("Ann", 91); ("Cy", 55)].
Proof. reflexivity. Qed.

Lemma manual_entry_never_stores_done_witness :
  manual_entry float_of_literal typed_lines = Return [("Ann", 91); ("Cy", 55)] /\
  forall n, n ∈ Dict.keys [("Ann", 91); ("Cy", 55)] -> ~ is_done n.
Proof.
  split; [exact typed_lines_return|].
  exact (manual_entry_never_stores_done float_of_literal _ _ typed_lines_return).
Defined.

Lemma input_layer_names_stripped_witness :
  input_layer_builds float_of_literal [("Ann", 3); ("Bo", 2)] dup_entries /\
  forall n, n ∈ Dict.keys [("Ann", 3); ("Bo", 2)] -> strip n = n.
Proof.
  split; [exact dup_rows_build|].
  exact (input_layer_names_stripped float_of_literal _ _ dup_rows_build).
Defined.

Lemma input_layer_export_load_witness :
  input_layer_builds float_of_literal [("Ann", 3); ("Bo", 2)] dup_entries /\
  Forall (fun s => exists s', float_of_literal (strip (str_of_number s)) = Some s' /\ s' == s)
    (Dict.values [("Ann", 3); ("Bo", 2)]) /\
  float_of_literal "Marks" = None /\
  let d' := load_from_csv float_of_literal
              (Some (export_to_csv str_of_number [("Ann", 3); ("Bo", 2)]
                       (assign_grades [("Ann", 3); ("Bo", 2)]))) in
  Dict.keys d' = Dict.keys [("Ann", 3); ("Bo", 2)] /\
  Forall2 Qeq (Dict.values d') (Dict.values [("Ann", 3); ("Bo", 2)]).
Proof.
  assert (Hmarks : Forall (fun s => exists s', float_of_literal (strip (str_of_number s)) = Some s' /\ s' == s)
            (Dict.values [("Ann", 3); ("Bo", 2)]))
    by (repeat constructor; eexists; split; reflexivity).
  assert (Hheader : float_of_literal "Marks" = None) by reflexivity.
  split_and!; [exact dup_rows_build|exact Hmarks|exact Hheader|..];
    apply (input_layer_export_load float_of_literal str_of_number _ _
             (assign_grades [("Ann", 3); ("Bo", 2)]) dup_rows_build Hmarks Hheader).
Defined.

(** ** The exported rows *)

Lemma lookup_map {X Y : Type} (f : X -> Y) (l : list X) (i : nat) (x : X) :
  l !! i = Some x -> map f l !! i = Some (f x).
Proof.
  revert i. induction l as [|y l IH]; intros [|i] Hi; simplify_eq/=; [done|].
  by apply IH.
Qed.

Section export_facts.
Variable str : Q -> string.

(** X15. Exported with the grades that [assign_grades] gives it, a record
    set yields the header and, for each student in order, the name, the
    mark as written by [str] and the letter of the grade of that mark: no
    grade field is left empty. *)
Theorem export_with_assigned_grades (m : marks_dict) :
  Dict.wf m ->
  export_to_csv str m (assign_grades m) =
  ["Name"; "Marks"; "Grade"] ::
  ((fun '(n, s) => [n; str s; grade_label (grade_of s)]) <$> m) /\
  forall row, row ∈ export_to_csv str m (assign_grades m) -> row !! 2%nat <> Some "".
Proof.
  intros Hm.
  assert (Hrows : export_to_csv str m (assign_grades m) =
    ["Name"; "Marks"; "Grade"] ::
    ((fun '(n, s) => [n; str s; grade_label (grade_of s)]) <$> m)).
  { unfold export_to_csv. f_equal.
    pose proof (fun n s => assign_grades_get m n s Hm) as Hget.
    generalize (assign_grades m) Hget. clear Hget Hm. intros grades Hget.
    induction m as [|[n s] m IH]; csimpl; [done|].
    rewrite (Hget n s) by left. simpl. f_equal. apply IH.
    intros n' s' Hin. apply Hget. by right. }
  split; [done|]. rewrite Hrows. intros row [->|Hrow]%elem_of_cons; [done|].
  apply list_elem_of_fmap in Hrow as ([n s] & -> & _). simpl.
  by destruct (grade_of s).
Qed.

(** X16. A student the grade dictionary does not know is exported with an
    empty grade field, and the row is written all the same. *)
Theorem export_without_grade (m : marks_dict) (grades : dict string grade)
    (i : nat) (n : string) (s : score) :
  m !! i = Some (n, s) -> n ∉ Dict.keys grades ->
  export_to_csv str m grades !! S i = Some [n; str s; ""].
Proof.
  intros Hi Hn%get_None. unfold export_to_csv. simpl.
  rewrite (lookup_map _ _ _ _ Hi). by rewrite Hn.
Qed.
End export_facts.

Lemma export_with_assigned_grades_witness :
  Dict.wf create_sample_data /\
  export_to_csv str_of_number create_sample_data (assign_grades create_sample_data) =
  ["Name"; "Marks"; "Grade"] ::
  ((fun '(n, s) => [n; str_of_number s; grade_label (grade_of s)]) <$> create_sample_data) /\
  forall row, row ∈ export_to_csv str_of_number create_sample_data
                      (assign_grades create_sample_data) -> row !! 2%nat <> Some "".
Proof.
  assert (Hwf : Dict.wf create_sample_data) by dict_wf.
  split; [exact Hwf|]. exact (export_with_assigned_grades str_of_number _ Hwf).
Defined.

Lemma export_without_grade_witness :
  create_sample_data !! 1%nat = Some ("Bob", 92) /\
  ("Bob" ∉ Dict.keys only_B) /\
  export_to_csv str_of_number create_sample_data only_B !! 2%nat = Some ["Bob"; "92.0"; ""].
Proof.
  assert (Hi : create_sample_data !! 1%nat = Some ("Bob", 92)) by reflexivity.
  assert (Hn : "Bob" ∉ Dict.keys only_B).
  { apply (bool_decide_unpack _). vm_compute. exact I. }
  split_and!; [exact Hi|exact Hn|].
  exact (export_without_grade str_of_number _ _ _ _ _ Hi Hn).
Defined.

(** ** Pass and fail at any threshold *)

(** X17. Whatever the threshold, the passed and the failed list together
    are a rearrangement of the names, so their lengths add up to the number
    of students; raising the threshold only moves names from the passed to
    the failed list. *)
Theorem get_pass_fail_any_threshold (m : marks_dict) (t t' : Q) :
  t <= t' ->
  let passed := (get_pass_fail m t).1 in
  let failed := (get_pass_fail m t).2 in
  passed ++ failed ≡ₚ Dict.keys m /\
  (length passed + length failed)%nat = length m /\
  (forall n, n ∈ (get_pass_fail m t').1 -> n ∈ passed) /\
  (forall n, n ∈ failed -> n ∈ (get_pass_fail m t').2).
Proof.
  intros Ht passed failed.
  assert (Hperm : passed ++ failed ≡ₚ Dict.keys m).
  { unfold passed, failed, get_pass_fail, Dict.keys; simpl.
    rewrite <- fmap_app. apply fmap_Permutation.
    apply List_filter_partition. by intros [??]. }
  split_and!; [done| | |].
  - rewrite <- length_app, Hperm. unfold Dict.keys. by rewrite length_fmap.
  - intros n. unfold passed, get_pass_fail; simpl.
    rewrite !elem_of_filter_names. intros (s & Hin & Hs). exists s. split; [done|].
    apply Qle_bool_iff in Hs. apply Qle_bool_iff. by apply Qle_trans with t'.
  - intros n. unfold failed, get_pass_fail; simpl.
    rewrite !elem_of_filter_names. intros (s & Hin & Hs). exists s. split; [done|].
    apply Qlt_bool_iff in Hs. apply Qlt_bool_iff. by apply Qlt_le_trans with t.
Qed.

Lemma get_pass_fail_any_threshold_witness :
  40 <= 60 /\
  let passed := (get_pass_fail create_sample_data 40).1 in
  let failed := (get_pass_fail create_sample_data 40).2 in
  passed ++ failed ≡ₚ Dict.keys create_sample_data /\
  (length passed + length failed)%nat = length create_sample_data /\
  (forall n, n ∈ (get_pass_fail create_sample_data 60).1 -> n ∈ passed) /\
  (forall n, n ∈ failed -> n ∈ (get_pass_fail create_sample_data 60).2).
Proof.
  assert (Ht : 40 <= 60) by (unfold Qle; simpl; lia).
  split; [exact Ht|]. exact (get_pass_fail_any_threshold create_sample_data 40 60 Ht).
Defined.

(** ** The table *)

Example format_2f_examples :
  format_2f <$> [78; 62.5; 68.666; 0.125; 0.375; -0.001; 100; -3.14159; 2.675] =
  ["78.00"; "62.50"; "68.67"; "0.12"; "0.38"; "-0.00"; "100.00"; "-3.14"; "2.68"].
Proof. reflexivity. Qed.

Example marks_str_examples :
  marks_str <$> [78; 62.5; 68.666; 100; 0; -5; 0.004; 1234.5] =
  ["78"; "62.5"; "68.67"; "100"; "0"; "-5"; "0"; "1234.5"].
Proof. reflexivity. Qed.

Example layout_examples :
  [ljust "ab" 5; rjust "ab" 5; center "a" 5; center "" 5; center "ab" 5; ljust "abcdef" 4] =
  ["ab   "; "   ab"; "  a  "; "     "; " ab  "; "abcdef"].
Proof. reflexivity. Qed.

Example sample_table :
  print_table create_sample_data (assign_grades create_sample_data) =
  [nl +:+ "Name      Marks  Grade";
   "--------------------------";
   "Alice        78    C  ";
   "Bob          92    A  ";
   "Charlie      65    D  ";
   "Deepa        55    F  ";
   "Esha         34    F  ";
   "Faiz         88    B  ";
   "--------------------------" +:+ nl].
Proof. reflexivity. Qed.

Lemma length_append (s t : string) :
  String.length (s +:+ t) = (String.length s + String.length t)%nat.
Proof. induction s as [|c s IH]; simpl; [done|]. by rewrite <- IH. Qed.

Lemma length_string_of_list_ascii (cs : list ascii) :
  String.length (string_of_list_ascii cs) = length cs.
Proof. induction cs as [|c cs IH]; simpl; [done|]. by rewrite IH. Qed.

Lemma length_spaces (n : nat) : String.length (spaces n) = n.
Proof. unfold spaces. by rewrite length_string_of_list_ascii, length_replicate. Qed.

Lemma length_dashes (n : nat) : String.length (dashes n) = n.
Proof. unfold dashes. by rewrite length_string_of_list_ascii, length_replicate. Qed.

Lemma length_ljust (s : string) (w : nat) :
  String.length (ljust s w) = Nat.max (String.length s) w.
Proof. unfold ljust. rewrite length_append, length_spaces. lia. Qed.

Lemma length_rjust (s : string) (w : nat) :
  String.length (rjust s w) = Nat.max (String.length s) w.
Proof. unfold rjust. rewrite length_append, length_spaces. lia. Qed.

Lemma length_center (s : string) (w : nat) :
  String.length (center s w) = Nat.max (String.length s) w.
Proof.
  unfold center. rewrite !length_append, !length_spaces.
  assert ((w - String.length s) / 2 <= w - String.length s)%nat by (apply Nat.Div0.div_le_upper_bound; lia).
  lia.
Qed.

Lemma foldl_max_ge (ns : list nat) : forall n k : nat,
  k = n \/ k ∈ ns -> (k <= foldl Nat.max n ns)%nat.
Proof.
  induction ns as [|x ns IH]; intros n k Hk; simpl.
  - destruct Hk as [->|?%elem_of_nil]; [lia|done].
  - destruct Hk as [->|[->|Hk]%elem_of_cons].
    + etrans; [|apply IH; by left]. lia.
    + etrans; [|apply IH; by left]. lia.
    + apply IH. by right.
Qed.

Lemma max_default_ge (ns : list nat) (d k : nat) : k ∈ ns -> (k <= max_default ns d)%nat.
Proof.
  destruct ns as [|n ns]; [by intros ?%elem_of_nil|]. simpl.
  intros [->|Hk]%elem_of_cons; apply foldl_max_ge; auto.
Qed.

Lemma length_grade_field (grades : dict string grade) (n : string) :
  String.length (center (from_option grade_label "" (Dict.get grades n)) 5) = 5%nat.
Proof. rewrite length_center. by destruct (Dict.get grades n) as [[]|]. Qed.

(** X18. The table of a non-empty record set is a header, a rule, one row
    per student in order and the rule again.  The name column is as wide as
    the longest name and at least 4; the header is 15 wider than the name
    column and the rule 19 wider, so the rule overhangs the header by 4; a
    row is as wide as the header when the text of its mark has at most 6
    characters and wider by the excess otherwise. *)
Theorem print_table_layout (m : marks_dict) (grades : dict string grade) :
  m <> [] ->
  exists (width : nat) (header : string) (rows : list string),
    print_table m grades =
      (nl +:+ header) :: dashes (width + 19) :: rows ++ [dashes (width + 19) +:+ nl] /\
    (4 <= width)%nat /\
    (forall n, n ∈ Dict.keys m -> (String.length n <= width)%nat) /\
    String.length header = (width + 15)%nat /\
    length rows = length m /\
    forall i n s, m !! i = Some (n, s) ->
      exists row, rows !! i = Some row /\
        String.length row = (width + 9 + Nat.max 6 (String.length (marks_str s)))%nat.
Proof.
  intros Hne.
  set (width := Nat.max (String.length "Name")
                  (max_default (String.length <$> Dict.keys m) 4)).
  assert (Hnames : forall n, n ∈ Dict.keys m -> (String.length n <= width)%nat).
  { intros n Hn. unfold width. etrans; [|apply Nat.le_max_r].
    apply max_default_ge. apply list_elem_of_fmap. by exists n. }
  eexists width, _, _. split_and!.
  - unfold print_table. destruct m as [|e m]; [done|]. fold width.
    change (Nat.max (String.length "Marks") 6) with 6%nat.
    change (Nat.max (String.length "Grade") 5) with 5%nat.
    replace (width + 6 + 5 + 8)%nat with (width + 19)%nat by lia. reflexivity.
  - unfold width. simpl. lia.
  - done.
  - rewrite !length_append, length_ljust. simpl. unfold width. simpl. lia.
  - by rewrite length_map.
  - intros i n s Hi. eexists. split; [by apply lookup_map|]. simpl.
    rewrite !length_append, length_ljust, length_rjust, length_grade_field. simpl.
    assert (String.length n <= width)%nat.
    { apply Hnames. apply list_elem_of_fmap. exists (n, s). split; [done|].
      by eapply list_elem_of_lookup_2. }
    lia.
Qed.

Lemma print_table_layout_witness :
  create_sample_data <> [] /\
  exists (width : nat) (header : string) (rows : list string),
    print_table create_sample_data (assign_grades create_sample_data) =
      (nl +:+ header) :: dashes (width + 19) :: rows ++ [dashes (width + 19) +:+ nl] /\
    (4 <= width)%nat /\
    (forall n, n ∈ Dict.keys create_sample_data -> (String.length n <= width)%nat) /\
    String.length header = (width + 15)%nat /\
    length rows = length create_sample_data /\
    forall i n s, create_sample_data !! i = Some (n, s) ->
      exists row, rows !! i = Some row /\
        String.length row = (width + 9 + Nat.max 6 (String.length (marks_str s)))%nat.
Proof.
  assert (Hne : create_sample_data <> []) by discriminate.
  split; [exact Hne|].
  exact (print_table_layout create_sample_data (assign_grades create_sample_data) Hne).
Defined.

(** ** The text of a mark *)











(** ** Sessions *)

Lemma tame_weaken {X : Type} (Q Q' : X -> Prop) (m : io X) (w : world) :
  (forall x, Q x -> Q' x) -> tame_at Q m w -> tame_at Q' m w.
Proof.
  intros HQ (r & w' & Hm & Hin & Hout & Hret & Hexn & Hfiles).
  exists r, w'. split_and!; [done..| |done|done]. intros x Hx. by apply HQ, Hret.
Qed.

Lemma tame_ret {X : Type} (Q : X -> Prop) (x : X) (w : world) :
  Q x -> tame_at Q (mret x) w.
Proof. intros Hx. exists (Return x), w. split_and!; [done..| |done|done]. by intros ? [= <-]. Qed.

Lemma tame_lift {X : Type} (x : X) (w : world) : tame_at (fun _ => True) (lift (Return x)) w.
Proof. exists (Return x), w. by split_and!. Qed.

Lemma print_runs (text : string) (w : world) :
  print text w = Ran (Return tt) (World (stdin w) (stdout w ++ [Printed text]) (files w)).
Proof. done. Qed.

Lemma print_returns (text : string) (x : unit) (w w' : world) :
  print text w = Ran (Return x) w' ->
  stdin w' = stdin w /\ files w' = files w.
Proof. rewrite print_runs. by intros [= _ <-]. Qed.

Lemma tame_print (text : string) (w : world) : tame_at (fun _ => True) (print text) w.
Proof.
  eexists _, _. split; [apply print_runs|]. simpl. split_and!; [done| |done..].
  by apply prefix_app_r.
Qed.

Lemma tame_bind {X Y : Type} (Q : X -> Prop) (Q' : Y -> Prop)
    (m : io X) (f : X -> io Y) (w : world) :
  tame_at Q m w ->
  (forall x w', m w = Ran (Return x) w' -> Q x -> stdin w' `suffix_of` stdin w ->
                tame_at Q' (f x) w') ->
  tame_at Q' (m ≫= f) w.
Proof.
  intros (r & w1 & Hm & Hin & Hout & Hret & Hexn & Hfiles) Hf.
  destruct r as [x|e].
  - destruct (Hf x w1 Hm (Hret x eq_refl) Hin)
      as (r2 & w2 & Hfx & Hin2 & Hout2 & Hret2 & Hexn2 & Hfiles2).
    exists r2, w2. split_and!; [|by etrans|by etrans|done|done|].
    + unfold mbind, io_bind. by rewrite Hm.
    + intros Hno. rewrite Hfiles2, Hfiles; [done..|].
      destruct Hin as [k Hk]. rewrite Hk in Hno. by apply Forall_app in Hno as [_ ?].
  - exists (Raise e), w1. split_and!; [|done|done|done| |done].
    + unfold mbind, io_bind. by rewrite Hm.
    + intros e' [= <-]. by apply Hexn.
Qed.

(** Reading a line: what is left is the rest. *)
Lemma input_runs (prompt : string) (w : world) :
  input prompt w =
  Ran (match stdin w with [] => Raise EOFError | l :: _ => Return l end)
      (World (tail (stdin w)) (stdout w ++ [Prompted prompt]) (files w)).
Proof. unfold input. by destruct (stdin w). Qed.

Lemma input_returns (prompt l : string) (w w' : world) :
  input prompt w = Ran (Return l) w' ->
  stdin w = l :: stdin w' /\ files w' = files w.
Proof.
  rewrite input_runs. destruct (stdin w) as [|l0 rest] eqn:Hw; [done|].
  by intros [= -> <-].
Qed.

Lemma tame_input (prompt : string) (w : world) :
  tame_at (fun l => l ∈ stdin w) (input prompt) w.
Proof.
  eexists _, _. split; [apply input_runs|]. simpl. split_and!.
  - destruct (stdin w) as [|l rest]; [done|]. by exists [l].
  - by apply prefix_app_r.
  - intros x. destruct (stdin w); intros [= <-]. left.
  - intros e. by destruct (stdin w); intros [= <-].
  - done.
Qed.

Lemma tame_for_each {X : Type} (body : X -> io unit) (l : list X) :
  (forall x w, tame_at (fun _ => True) (body x) w) ->
  forall w, tame_at (fun _ => True) (for_each l body) w.
Proof.
  intros Hbody. induction l as [|x l IH]; intros w; simpl.
  - by apply tame_ret.
  - eapply tame_bind; [apply Hbody|]. intros _ w' _ _ _. apply IH.
Qed.

Lemma tame_with_fuel {X : Type} (Q : X -> Prop) (loop : nat -> io X) (w : world) :
  (forall fuel w, (length (stdin w) < fuel)%nat -> tame_at Q (loop fuel) w) ->
  tame_at Q (with_fuel loop) w.
Proof.
  intros Hloop. destruct (Hloop (S (length (stdin w))) w) as (r & w' & Hr & ?); [lia|].
  by exists r, w'.
Qed.

Lemma tame_of_step {X : Type} (Q : X -> Prop) (m : io X) (w : world) (s : step X) :
  m w = s ->
  (exists r w',
     s = Ran r w' /\
     stdin w' `suffix_of` stdin w /\
     stdout w `prefix_of` stdout w' /\
     (forall x, r = Return x -> Q x) /\
     (forall e, r = Raise e -> e = EOFError /\ stdin w' = []) /\
     (Forall (fun l => ~ says_yes l) (stdin w) -> files w' = files w)) ->
  tame_at Q m w.
Proof. by intros <-. Qed.

Lemma suffix_shorter (l k : list string) :
  l `suffix_of` k -> (length l <= length k)%nat.
Proof. intros [k' ->]. rewrite length_app. lia. Qed.

Lemma statistics_return (m : marks_dict) :
  (exists r, calculate_average m = Return r) /\
  (exists r, calculate_median m = Return r) /\
  (exists r, find_max_score m = Return r) /\
  (exists r, find_min_score m = Return r).
Proof.
  destruct (decide (m = [])) as [->|Hne]; [by split_and!; eexists|].
  split_and!.
  - eexists. by apply calculate_average_value.
  - destruct (statistics_median_returns _ (values_nonempty m Hne)) as (q & Hq & _).
    exists (Some q). unfold calculate_median. destruct m; [done|]. by rewrite Hq.
  - destruct (find_max_score_value m Hne) as (top & Hmax & _). by eexists.
  - destruct (find_min_score_value m Hne) as (bottom & Hmin & _). by eexists.
Qed.

Section session_facts.
Variable float : string -> option Q.
Variable str : Q -> string.
Variable write_error : string -> option string.

Abbreviation manual_entry_loop := (Session.manual_entry_loop float).
Abbreviation export_loop := (Session.export_loop str write_error).
Abbreviation run_analysis := (Session.run_analysis str write_error).
Abbreviation main_loop := (Session.main_loop float str write_error).

Lemma tame_manual_entry_loop (fuel : nat) : forall (data : marks_dict) (w : world),
  (length (stdin w) < fuel)%nat ->
  tame_at (fun _ => True) (manual_entry_loop fuel data) w.
Proof.
  induction fuel as [|fuel IH]; intros data w Hfuel; [lia|]. simpl.
  eapply tame_bind; [apply tame_input|]. intros l w1 [Hw1 _]%input_returns _ _.
  assert (length (stdin w1) < fuel)%nat by (rewrite Hw1 in Hfuel; simpl in Hfuel; lia).
  destruct (decide (lower (strip l) = "done")); [by apply tame_ret|].
  destruct (decide (strip l = "")).
  { eapply tame_bind; [apply tame_print|]. intros x w2 [Hs _]%print_returns _ _.
    apply IH. by rewrite Hs. }
  eapply tame_bind; [apply tame_input|]. intros l' w2 [Hw2 _]%input_returns _ _.
  assert (length (stdin w2) < fuel)%nat by (rewrite Hw2 in *; simpl in *; lia).
  destruct (decide (lower (strip l') = "done")); [by apply tame_ret|].
  destruct (float (strip l')).
  - by apply IH.
  - eapply tame_bind; [apply tame_print|]. intros x w3 [Hs _]%print_returns _ _.
    apply IH. by rewrite Hs.
Qed.

Lemma tame_manual_entry (w : world) :
  tame_at (fun _ => True) (Session.manual_entry float) w.
Proof.
  unfold Session.manual_entry. eapply tame_bind; [apply tame_print|].
  intros _ w' _ _ _. apply tame_with_fuel. intros fuel w''. apply tame_manual_entry_loop.
Qed.

(** Loading in a session returns what the loader returns for the rows of
    the file, shows at most a message and changes nothing else. *)
Lemma load_from_csv_runs (path : string) (w : world) :
  exists shown,
    Session.load_from_csv float path w =
    Ran (Return (load_from_csv float (file_rows (files w) path)))
        (World (stdin w) (stdout w ++ shown) (files w)).
Proof.
  unfold Session.load_from_csv, file_rows.
  destruct (Dict.get (files w) path) as [[[|r rows]|e]|].
  - by eexists [_].
  - exists []. rewrite app_nil_r. by destruct w.
  - by eexists [_].
  - by eexists [_].
Qed.

Lemma tame_load_from_csv (path : string) (w : world) :
  tame_at (fun _ => True) (Session.load_from_csv float path) w.
Proof.
  destruct (load_from_csv_runs path w) as [shown Hrun].
  eexists _, _. split; [exact Hrun|]. simpl. split_and!; [done| |done..].
  by apply prefix_app_r.
Qed.

Lemma tame_print_table (m : marks_dict) (grades : dict string grade) (w : world) :
  tame_at (fun _ => True) (Session.print_table m grades) w.
Proof. apply tame_for_each. intros. apply tame_print. Qed.

Lemma export_loop_step (fuel : nat) (marks : marks_dict) (grades : dict string grade)
    (l : string) (rest : list string) (shown : list event) (fs : dict string reading) :
  export_loop (S fuel) marks grades (World (l :: rest) shown fs) =
  let w1 :=
    World rest
      (shown ++ [Prompted "Do you want to export the results table to CSV? (y/n): "]) fs in
  if decide (says_yes l) then
    match rest with
    | [] =>
        Ran (Raise EOFError)
          (World [] (stdout w1 ++ [Prompted "Enter output CSV filename (e.g. results.csv): "]) fs)
    | l' :: rest' =>
        Session.export_to_csv str write_error marks grades
          (if decide (strip l' = "") then "results.csv" else strip l')
          (World rest' (stdout w1 ++ [Prompted "Enter output CSV filename (e.g. results.csv): "]) fs)
    end
  else if decide (says_no l) then Ran (Return tt) w1
  else export_loop fuel marks grades
         (World rest (stdout w1 ++ [Printed "Please enter y or n."]) fs).
Proof.
  unfold says_yes, says_no. simpl.
  unfold mbind, io_bind. rewrite input_runs. simpl.
  destruct (decide (lower (strip l) ∈ ["y"; "yes"])).
  - rewrite input_runs. simpl. by destruct rest.
  - by destruct (decide (lower (strip l) ∈ ["n"; "no"])).
Qed.

Lemma export_to_csv_runs (marks : marks_dict) (grades : dict string grade)
    (path : string) (w : world) :
  Session.export_to_csv str write_error marks grades path w =
  match write_error path with
  | Some e =>
      Ran (Return tt)
        (World (stdin w) (stdout w ++ [Printed ("Failed to export CSV: " +:+ e)]) (files w))
  | None =>
      Ran (Return tt)
        (World (stdin w) (stdout w ++ [Printed ("Exported results to " +:+ path)])
           (Dict.set (files w) path (Opened (export_to_csv str marks grades))))
  end.
Proof. unfold Session.export_to_csv. by destruct (write_error path). Qed.

Lemma tame_export_loop (marks : marks_dict) (grades : dict string grade) (fuel : nat) :
  forall w, (length (stdin w) < fuel)%nat ->
  tame_at (fun _ => True) (export_loop fuel marks grades) w.
Proof.
  induction fuel as [|fuel IH]; intros [lines shown fs] Hfuel; simpl in Hfuel; [lia|].
  destruct lines as [|l rest].
  { eexists _, _. split; [reflexivity|]. simpl. split_and!; [done| |done|by intros ? [= <-]|done].
    by apply prefix_app_r. }
  eapply tame_of_step; [apply export_loop_step|]. simpl.
  destruct (decide (says_yes l)) as [Hyes|Hyes].
  - destruct rest as [|l' rest'].
    + eexists _, _. split; [reflexivity|]. simpl.
      split_and!; [by exists [l]| |done|by intros ? [= <-]|].
      * rewrite <- app_assoc. by apply prefix_app_r.
      * by intros [? _]%Forall_cons.
    + rewrite export_to_csv_runs. simpl.
      assert (Hsuffix : rest' `suffix_of` l :: l' :: rest') by (by exists [l; l']).
      destruct (write_error _); eexists _, _; (split; [reflexivity|]); simpl;
        (split_and!; [done| |done|done|by intros [? _]%Forall_cons]);
        rewrite <- !app_assoc; by apply prefix_app_r.
  - destruct (decide (says_no l)).
    + eexists _, _. split; [reflexivity|]. simpl.
      split_and!; [by exists [l]| |done|done|done]. by apply prefix_app_r.
    + destruct (IH (World rest ((shown ++
          [Prompted "Do you want to export the results table to CSV? (y/n): "]) ++
          [Printed "Please enter y or n."]) fs))
        as (r & w' & Hrun & Hin & Hout & Hret & Hexn & Hfiles); [simpl in *; lia|].
      simpl in *. exists r, w'. split_and!; [done| | |done|done|].
      * etrans; [done|]. by exists [l].
      * etrans; [|done]. rewrite <- app_assoc. by apply prefix_app_r.
      * intros [_ Hno]%Forall_cons. by apply Hfiles.
Qed.

Lemma same_but_shown_refl (w : world) : same_but_shown w w.
Proof. by split_and!. Qed.

Lemma same_but_shown_trans (w w1 w2 : world) :
  same_but_shown w w1 -> same_but_shown w1 w2 -> same_but_shown w w2.
Proof.
  intros (Hin & Hfs & Hout) (Hin' & Hfs' & Hout'). split_and!; [congruence..|by etrans].
Qed.

Lemma quiet_print (text : string) : quiet (print text).
Proof.
  intros w. eexists. split; [|apply print_runs]. split_and!; [done..|].
  by apply prefix_app_r.
Qed.

Lemma quiet_ret : quiet (mret tt).
Proof. intros w. exists w. split; [apply same_but_shown_refl|done]. Qed.

(** What follows a quiet action runs in a world with more shown. *)
Lemma quiet_then {Y : Type} (m : io unit) (k : io Y) (goal : world -> step Y) :
  quiet m ->
  (forall w, exists w1, same_but_shown w w1 /\ k w = goal w1) ->
  forall w, exists w1, same_but_shown w w1 /\ (m ≫= fun _ => k) w = goal w1.
Proof.
  intros Hm Hk w. destruct (Hm w) as (w1 & Hw1 & Hrun).
  destruct (Hk w1) as (w2 & Hw2 & Hrun2). exists w2.
  split; [by eapply same_but_shown_trans|]. unfold mbind, io_bind. by rewrite Hrun.
Qed.

Lemma quiet_for_each {X : Type} (body : X -> io unit) (l : list X) :
  (forall x, quiet (body x)) -> quiet (for_each l body).
Proof.
  intros Hbody. induction l as [|x l IH]; [apply quiet_ret|]. intros w.
  destruct (quiet_then (body x) (for_each l body) (fun w1 => Ran (Return tt) w1)
              (Hbody x) IH w) as (w1 & Hw1 & Hrun).
  by exists w1.
Qed.

(** For a record set with data, [run_analysis] shows the summary and the
    table and then asks about the export. *)
Lemma run_analysis_summary (marks : marks_dict) :
  marks <> [] ->
  forall w, exists w1, same_but_shown w w1 /\
    run_analysis marks w =
    with_fuel (fun fuel => export_loop fuel marks (assign_grades marks)) w1.
Proof.
  intros Hne.
  destruct (statistics_return marks)
    as ([avg Havg] & [med Hmed] & [[top tops] Htop] & [[bottom bottoms] Hbottom]).
  unfold Session.run_analysis. destruct marks as [|e marks]; [done|].
  rewrite Havg, Hmed, Htop, Hbottom.
  destruct (get_pass_fail (e :: marks) default_threshold) as [passed failed].
  change (forall w, exists w1, same_but_shown w w1 /\
    (print (nl +:+ "--- Analysis Summary ---") ≫= fun _ =>
     print ("Total students: " +:+ str_nat (length (e :: marks))) ≫= fun _ =>
     print (match avg with
            | Some a => "Average (mean): " +:+ format_2f a
            | None => "Average: N/A"
            end) ≫= fun _ =>
     print (match med with
            | Some a => "Median: " +:+ format_2f a
            | None => "Median: N/A"
            end) ≫= fun _ =>
     match top with
     | Some x =>
         print ("Max score: " +:+ str x +:+ "  (Students: " +:+ join_names tops +:+ ")")
     | None => mret tt
     end ≫= fun _ =>
     match bottom with
     | Some x =>
         print ("Min score: " +:+ str x +:+ "  (Students: " +:+ join_names bottoms +:+ ")")
     | None => mret tt
     end ≫= fun _ =>
     print (nl +:+ "Grade distribution:") ≫= fun _ =>
     for_each [A; B; C; D; F] (fun g =>
       print ("  " +:+ grade_label g +:+ ": " +:+
              str_nat (Dict.get_default (grade_distribution (assign_grades (e :: marks))) g 0%nat)))
       ≫= fun _ =>
     print (nl +:+ "Passed (>=40): " +:+ str_nat (length passed)) ≫= fun _ =>
     match passed with
     | [] => mret tt
     | _ => print ("  " +:+ join_names passed)
     end ≫= fun _ =>
     print ("Failed (<40): " +:+ str_nat (length failed)) ≫= fun _ =>
     match failed with
     | [] => mret tt
     | _ => print ("  " +:+ join_names failed)
     end ≫= fun _ =>
     Session.print_table (e :: marks) (assign_grades (e :: marks)) ≫= fun _ =>
     with_fuel (fun fuel => export_loop fuel (e :: marks) (assign_grades (e :: marks)))) w =
    with_fuel (fun fuel => export_loop fuel (e :: marks) (assign_grades (e :: marks))) w1).
  repeat (apply quiet_then; [first
    [ apply quiet_print
    | apply quiet_for_each; intros; apply quiet_print
    | by destruct top; [apply quiet_print|apply quiet_ret]
    | by destruct bottom; [apply quiet_print|apply quiet_ret]
    | by destruct passed; [apply quiet_ret|apply quiet_print]
    | by destruct failed; [apply quiet_ret|apply quiet_print]
    | idtac ]|]).
intros w. exists w. split; [apply same_but_shown_refl|done].
Qed.

Lemma tame_run_analysis (marks : marks_dict) (w : world) :
  tame_at (fun _ => True) (run_analysis marks) w.
Proof.
  destruct (decide (marks = [])) as [->|Hne]; [apply tame_print|].
  destruct (run_analysis_summary marks Hne w) as (w1 & (Hin & Hfs & Hout) & Hrun).
  destruct (tame_with_fuel (fun _ => True)
              (fun fuel => export_loop fuel marks (assign_grades marks)) w1)
    as (r & w' & Hloop & Hin' & Hout' & Hret & Hexn & Hfiles).
  { intros fuel w2. apply tame_export_loop. }
  exists r, w'. split_and!; [congruence|congruence|by etrans|done|done|].
  intros Hno. rewrite <- Hfs. apply Hfiles. by rewrite Hin.
Qed.

Lemma main_loop_step (fuel : nat) :
  main_loop (S fuel) =
  (Session.show_menu;;
   l ← input "Choose an option (1-4): ";
   let choice := strip l in
   if decide (choice = "1") then
     data ← Session.manual_entry float; run_analysis data;; main_loop fuel
   else if decide (choice = "2") then
     l' ← input "Enter CSV file path: ";
     data ← Session.load_from_csv float (strip l'); run_analysis data;; main_loop fuel
   else if decide (choice = "3") then
     print "Loaded sample data (6 students).";;
     run_analysis create_sample_data;; main_loop fuel
   else if decide (choice = "4" \/ lower choice ∈ ["exit"; "quit"]) then
     print "Exiting. Bye!";; mret 0%Z
   else
     print "Invalid choice. Please enter 1, 2, 3, or 4.";; main_loop fuel).
Proof. reflexivity. Qed.

Lemma tame_main_loop (fuel : nat) : forall w,
  (length (stdin w) < fuel)%nat ->
  tame_at (fun code => code = 0%Z) (main_loop fuel) w.
Proof.
  induction fuel as [|fuel IH]; intros w Hfuel; [lia|]. rewrite main_loop_step.
  eapply tame_bind; [apply tame_print|]. intros x w0 [Hw0 _]%print_returns _ _.
  eapply tame_bind; [apply tame_input|]. intros l w1 [Hw1 _]%input_returns _ _.
  assert (Hlen : (length (stdin w1) < fuel)%nat).
  { rewrite <- Hw0, Hw1 in Hfuel. simpl in Hfuel. lia. }
  assert (Hnext : forall w2, stdin w2 `suffix_of` stdin w1 ->
            tame_at (fun code => code = 0%Z) (main_loop fuel) w2).
  { intros w2 Hsuffix%suffix_shorter. apply IH. lia. }
  cbv zeta. destruct (decide (strip l = "1")).
  { eapply tame_bind; [apply tame_manual_entry|]. intros data w2 _ _ Hs2.
    eapply tame_bind; [apply tame_run_analysis|]. intros y w3 _ _ Hs3.
    apply Hnext. by etrans. }
  destruct (decide (strip l = "2")).
  { eapply tame_bind; [apply tame_input|]. intros l' w2 _ _ Hs2.
    eapply tame_bind; [apply tame_load_from_csv|]. intros data w3 _ _ Hs3.
    eapply tame_bind; [apply tame_run_analysis|]. intros y w4 _ _ Hs4.
    apply Hnext. etrans; [done|]. by etrans. }
  destruct (decide (strip l = "3")).
  { eapply tame_bind; [apply tame_print|]. intros y w2 _ _ Hs2.
    eapply tame_bind; [apply tame_run_analysis|]. intros y' w3 _ _ Hs3.
    apply Hnext. by etrans. }
  destruct (decide (strip l = "4" \/ lower (strip l) ∈ ["exit"; "quit"])).
  { eapply tame_bind; [apply tame_print|]. intros. by apply tame_ret. }
  eapply tame_bind; [apply tame_print|]. intros y w2 _ _ Hs2. by apply Hnext.
Qed.

(** X20. A session of [main] always comes to an end, and in one of two
    ways: by [sys.exit] with code 0, or by [EOFError] once every typed line
    is read.  It reads the typed lines from the front only and what it has
    shown stays shown. *)
Theorem main_ends_by_exit_or_end_of_input (w : world) :
  exists r w',
    Session.main float str write_error w = Ran r w' /\
    (r = Return 0%Z \/ r = Raise EOFError /\ stdin w' = []) /\
    stdin w' `suffix_of` stdin w /\
    stdout w `prefix_of` stdout w'.
Proof.
  assert (Htame : tame_at (fun code => code = 0%Z) (Session.main float str write_error) w).
  { unfold Session.main. eapply tame_bind; [apply tame_print|].
    intros x w0 _ _ _. apply tame_with_fuel. apply tame_main_loop. }
  destruct Htame as (r & w' & Hrun & Hin & Hout & Hret & Hexn & _).
  exists r, w'. split_and!; [done| |done..].
  destruct r as [code|e].
  - left. f_equal. by apply Hret.
  - right. destruct (Hexn e eq_refl) as [-> ?]. by split.
Qed.

(** X21. A session writes no file unless a typed line, trimmed and in lower
    case, reads y or yes: without such a line the files at the end are the
    files at the start. *)
Theorem main_writes_only_on_yes (w : world) (r : result Z) (w' : world) :
  Forall (fun l => ~ says_yes l) (stdin w) ->
  Session.main float str write_error w = Ran r w' ->
  files w' = files w.
Proof.
  intros Hno Hrun.
  assert (Htame : tame_at (fun code => code = 0%Z) (Session.main float str write_error) w).
  { unfold Session.main. eapply tame_bind; [apply tame_print|].
    intros x w0 _ _ _. apply tame_with_fuel. apply tame_main_loop. }
  destruct Htame as (r0 & w0 & Hrun0 & _ & _ & _ & _ & Hfiles).
  rewrite Hrun in Hrun0. injection Hrun0 as <- <-. by apply Hfiles.
Qed.

Lemma says_no_not_yes (l : string) : says_no l -> ~ says_yes l.
Proof.
  unfold says_no, says_yes. intros Hno Hyes.
  apply list_elem_of_In in Hno, Hyes. simpl in *.
  destruct Hno as [Hn|[Hn|[]]], Hyes as [Hy|[Hy|[]]]; congruence.
Qed.

(** Answers that are neither yes nor no are asked again. *)
Lemma export_loop_asks_again (marks : marks_dict) (grades : dict string grade)
    (junk : list string) :
  Forall (fun l => ~ says_yes l /\ ~ says_no l) junk ->
  forall (fuel : nat) (rest : list string) (shown : list event) (fs : dict string reading),
  exists shown', shown `prefix_of` shown' /\
    export_loop (length junk + fuel) marks grades (World (junk ++ rest) shown fs) =
    export_loop fuel marks grades (World rest shown' fs).
Proof.
  induction 1 as [|l junk [Hyes Hno] Hjunk IH]; intros fuel rest shown fs.
  - by exists shown.
  - change (length (l :: junk) + fuel)%nat with (S (length junk + fuel)).
    change ((l :: junk) ++ rest) with (l :: (junk ++ rest)).
    rewrite export_loop_step. cbv zeta.
    rewrite decide_False, decide_False by done.
    destruct (IH fuel rest (stdout (World (junk ++ rest)
               (shown ++ [Prompted "Do you want to export the results table to CSV? (y/n): "]) fs)
               ++ [Printed "Please enter y or n."]) fs) as (shown' & Hpre & Hrun).
    exists shown'. split; [|done]. etrans; [|done]. simpl.
    rewrite <- app_assoc. by apply prefix_app_r.
Qed.

Lemma run_analysis_export (marks : marks_dict) (w : world)
    (junk : list string) (answer name : string) (rest : list string) :
  marks <> [] ->
  Forall (fun l => ~ says_yes l /\ ~ says_no l) junk ->
  says_yes answer ->
  stdin w = junk ++ answer :: name :: rest ->
  let path := if decide (strip name = "") then "results.csv" else strip name in
  exists w',
    run_analysis marks w = Ran (Return tt) w' /\
    stdin w' = rest /\
    stdout w `prefix_of` stdout w' /\
    files w' =
      match write_error path with
      | None =>
          Dict.set (files w) path
            (Opened (export_to_csv str marks (assign_grades marks)))
      | Some _ => files w
      end.
Proof.
  intros Hne Hjunk Hyes Hw path.
  destruct (run_analysis_summary marks Hne w) as ([lines shown fs] & (Hin & Hfs & Hout) & ->).
  simpl in *. subst lines fs. unfold with_fuel. simpl stdin. rewrite Hw.
  replace (S (length (junk ++ answer :: name :: rest)))
    with (length junk + S (S (S (length rest))))%nat by (rewrite length_app; simpl; lia).
  destruct (export_loop_asks_again marks (assign_grades marks) junk Hjunk
              (S (S (S (length rest)))) (answer :: name :: rest) shown (files w))
    as (shown' & Hpre & ->).
  rewrite export_loop_step. cbv zeta. rewrite decide_True by done.
  rewrite export_to_csv_runs. fold path. simpl stdin. simpl files. simpl stdout.
  destruct (write_error path); eexists; (split; [reflexivity|]); simpl;
    (split_and!; [done| |done]);
    (etrans; [exact Hout|]); (etrans; [exact Hpre|]);
    rewrite <- !app_assoc; by apply prefix_app_r.
Qed.


(** X23. The file such an export writes loads back in the same session:
    for a record set with unique, stripped names whose marks [float] reads
    back from what [str] wrote, [load_from_csv] on the exported path
    returns the names in the same order with the original marks, and
    changes no file. *)
Theorem exported_file_loads_back (marks : marks_dict) (w : world)
    (junk : list string) (answer name : string) (rest : list string) :
  marks <> [] ->
  Forall (fun l => ~ says_yes l /\ ~ says_no l) junk ->
  says_yes answer ->
  stdin w = junk ++ answer :: name :: rest ->
  Dict.wf marks ->
  Forall stripped_name (Dict.keys marks) ->
  Forall (fun s => exists s', float (strip (str s)) = Some s' /\ s' == s) (Dict.values marks) ->
  float "Marks" = None ->
  let path := if decide (strip name = "") then "results.csv" else strip name in
  write_error path = None ->
  exists w' d' w'',
    run_analysis marks w = Ran (Return tt) w' /\
    Session.load_from_csv float path w' = Ran (Return d') w'' /\
    Dict.keys d' = Dict.keys marks /\
    Forall2 Qeq (Dict.values d') (Dict.values marks) /\
    files w'' = files w'.
Proof.
  intros Hne Hjunk Hyes Hw Hwf Hnames Hmarks Hheader path Hwrite.
  destruct (run_analysis_export marks w junk answer name rest Hne Hjunk Hyes Hw)
    as (w' & Hrun & _ & _ & Hfiles).
  fold path in Hfiles. rewrite Hwrite in Hfiles.
  destruct (load_from_csv_runs path w') as [shown Hload].
  assert (Hrows : file_rows (files w') path =
                  Some (export_to_csv str marks (assign_grades marks))).
  { unfold file_rows. by rewrite Hfiles, get_set_eq. }
  rewrite Hrows in Hload.
  destruct (load_exported float str marks (assign_grades marks) Hwf Hnames Hmarks Hheader)
    as [Hkeys Hvalues].
  eexists w', _, _. split_and!; [exact Hrun|exact Hload|exact Hkeys|exact Hvalues|done].
Qed.
End session_facts.

(** The three theorems at concrete sessions over [one_file], where every
    write succeeds. *)
Lemma main_writes_only_on_yes_witness :
  let w := World ["2"; " marks.csv "; "maybe"; "n"; "3"; "no"; "quit"] [] one_file in
  Forall (fun l => ~ says_yes l) (stdin w) /\
  exists r w',
    Session.main float_of_text str_of_number (fun _ => None) w = Ran r w' /\
    files w' = files w.
Proof.
  intros w.
  assert (Hno : Forall (fun l => ~ says_yes l) (stdin w)).
  { repeat constructor; intros H; apply list_elem_of_In in H;
      vm_compute in H; intuition congruence. }
  split; [exact Hno|].
  eexists _, _. split; [vm_compute; reflexivity|].
  eapply (main_writes_only_on_yes float_of_text str_of_number (fun _ => None) w);
    [exact Hno|vm_compute; reflexivity].
Defined.


Lemma exported_file_loads_back_witness :
  let marks : marks_dict := [("Ann", 91); ("Bo", 38)] in
  let w := World ["maybe"; "Y"; " out.csv "; "later"] [] one_file in
  marks <> [] /\
  Forall (fun l => ~ says_yes l /\ ~ says_no l) ["maybe"] /\
  says_yes "Y" /\
  stdin w = ["maybe"] ++ "Y" :: " out.csv " :: ["later"] /\
  Dict.wf marks /\
  Forall stripped_name (Dict.keys marks) /\
  Forall (fun s => exists s', float_of_text (strip (str_of_number s)) = Some s' /\ s' == s)
    (Dict.values marks) /\
  float_of_text "Marks" = None /\
  exists w' d' w'',
    Session.run_analysis str_of_number (fun _ => None) marks w = Ran (Return tt) w' /\
    Session.load_from_csv float_of_text "out.csv" w' = Ran (Return d') w'' /\
    Dict.keys d' = Dict.keys marks /\
    Forall2 Qeq (Dict.values d') (Dict.values marks) /\
    files w'' = files w'.
Proof.
  intros marks w.
  assert (Hne : marks <> []) by done.
  assert (Hjunk : Forall (fun l => ~ says_yes l /\ ~ says_no l) ["maybe"]).
  { repeat constructor; intros H; apply list_elem_of_In in H;
      vm_compute in H; intuition congruence. }
  assert (Hyes : says_yes "Y").
  { apply list_elem_of_In. vm_compute. by left. }
  assert (Hw : stdin w = ["maybe"] ++ "Y" :: " out.csv " :: ["later"]) by reflexivity.
  assert (Hwf : Dict.wf marks) by dict_wf.
  assert (Hnames : Forall stripped_name (Dict.keys marks))
    by (unfold marks; repeat constructor; discriminate).
  assert (Hmarks : Forall (fun s => exists s',
                     float_of_text (strip (str_of_number s)) = Some s' /\ s' == s)
                     (Dict.values marks))
    by (unfold marks; repeat constructor; eexists; split; reflexivity).
  assert (Hheader : float_of_text "Marks" = None) by reflexivity.
  split_and!; [exact Hne|exact Hjunk|exact Hyes|exact Hw|exact Hwf|exact Hnames|
               exact Hmarks|exact Hheader|].
  exact (exported_file_loads_back float_of_text str_of_number (fun _ => None)
           marks w ["maybe"] "Y" " out.csv " ["later"]
           Hne Hjunk Hyes Hw Hwf Hnames Hmarks Hheader eq_refl).
Defined.
